(** * AbstractActionReader: the block reader of demux-js

    A shallow embedding of [src/AbstractActionReader.ts].  The class is a
    mutable object whose methods await two abstract adapter methods; it is
    modelled as a state-and-exception monad over the object's fields, the
    adapter's own state and a ghost log of the calls made.

    The numbers of the class hold block numbers and lengths; they are taken
    to be integers and modelled as [Z].  Block hashes are strings.  What the
    methods write with [console.info] is not modelled. *)

From Stdlib Require Import ZArith Lia.
From stdpp Require Import base list strings pretty.
From Equations Require Import Equations.

Local Open Scope string_scope.
Local Open Scope Z_scope.
Local Open Scope list_scope.

(** ** Data model *)

(** Modelled from the spec: the [BlockInfo] of [./interfaces], from which the
    reader imports [Block]; it holds [blockNumber], [blockHash] and
    [previousBlockHash]. *)
Record BlockInfo := mkBlockInfo {
  blockNumber : Z;
  blockHash : string;
  previousBlockHash : string
}.

(** Modelled from the spec: the [Block] of the same file, a [BlockInfo] and
    a payload that the reader never looks into. *)
Record Block := mkBlock {
  blockInfo : BlockInfo;
  actions : list string
}.

(** What a call can throw: [Error(msg)] raised by the reader itself, the
    [TypeError] of reading a property of [undefined] in the reader's code, or
    whatever an adapter method rejects with, tagged by where it came from. *)
Inductive Exn :=
| Error (msg : string)
| TypeError
| AdapterError (msg : string).

Inductive Outcome (A : Type) :=
| Ok (a : A)
| Throw (e : Exn).
Arguments Ok {A} a.
Arguments Throw {A} e.

(** The fields of the class. *)
Record Reader := mkReader {
  headBlockNumber : Z;
  currentBlockNumber : Z;
  isFirstBlock : bool;
  currentBlockData : option Block;
  blockHistory : list Block;
  startAtBlock : Z;
  onlyIrreversible : bool;
  maxHistoryLength : Z
}.

(** Ghost log: every adapter call and every run of the history handler. *)
Inductive Event :=
| CallGetHeadBlockNumber
| CallGetBlock (n : Z)
| CallHistoryExhausted.

(** The two abstract methods.  [W] is the adapter's own state (the chain it
    reads); a call may change it, and resolves to a value ([inr]) or rejects
    with a failure of the adapter's ([inl]). *)
Class ChainAdapter (W : Type) := {
  getHeadBlockNumber : W -> (string + Z) * W;
  getBlock : Z -> W -> (string + Block) * W
}.

Record Sys (W : Type) := mkSys {
  reader : Reader;
  world : W;
  trace : list Event
}.
Arguments mkSys {W} _ _ _.
Arguments reader {W} _.
Arguments world {W} _.
Arguments trace {W} _.

(** ** The monad of method bodies

    A thrown exception keeps the state as mutated so far, as in JavaScript. *)
Definition M (W A : Type) : Type := Sys W -> Outcome A * Sys W.

Definition ret {W A} (a : A) : M W A := fun s => (Ok a, s).

Definition throw {W A} (e : Exn) : M W A := fun s => (Throw e, s).

Definition bind {W A B} (m : M W A) (k : A -> M W B) : M W B :=
  fun s => match m s with
           | (Ok a, s') => k a s'
           | (Throw e, s') => (Throw e, s')
           end.

Declare Scope reader_scope.
Delimit Scope reader_scope with reader.
Notation "x <- m ;; k" := (bind m (fun x => k))
  (at level 100, m at next level, right associativity) : reader_scope.
Notation "m ;; k" := (bind m (fun _ => k))
  (at level 100, right associativity) : reader_scope.
Local Open Scope reader_scope.

(** What [await] makes of a promise once it has settled. *)
Definition settled {A} (r : string + A) : Outcome A :=
  match r with
  | inr a => Ok a
  | inl e => Throw (AdapterError e)
  end.

Definition this {W} : M W Reader := fun s => (Ok (reader s), s).

Definition assign {W} (f : Reader -> Reader) : M W unit :=
  fun s => (Ok tt, mkSys (f (reader s)) (world s) (trace s)).

Definition emit {W} (e : Event) : M W unit :=
  fun s => (Ok tt, mkSys (reader s) (world s) (trace s ++ [e])).

Definition when {W} (c : bool) (m : M W unit) : M W unit :=
  if c then m else ret tt.

(** Field assignments, [this.f = v]. *)
Definition set_headBlockNumber (v : Z) (r : Reader) : Reader :=
  mkReader v (currentBlockNumber r) (isFirstBlock r) (currentBlockData r)
    (blockHistory r) (startAtBlock r) (onlyIrreversible r) (maxHistoryLength r).

Definition set_currentBlockNumber (v : Z) (r : Reader) : Reader :=
  mkReader (headBlockNumber r) v (isFirstBlock r) (currentBlockData r)
    (blockHistory r) (startAtBlock r) (onlyIrreversible r) (maxHistoryLength r).

Definition set_isFirstBlock (v : bool) (r : Reader) : Reader :=
  mkReader (headBlockNumber r) (currentBlockNumber r) v (currentBlockData r)
    (blockHistory r) (startAtBlock r) (onlyIrreversible r) (maxHistoryLength r).

Definition set_currentBlockData (v : option Block) (r : Reader) : Reader :=
  mkReader (headBlockNumber r) (currentBlockNumber r) (isFirstBlock r) v
    (blockHistory r) (startAtBlock r) (onlyIrreversible r) (maxHistoryLength r).

Definition set_blockHistory (v : list Block) (r : Reader) : Reader :=
  mkReader (headBlockNumber r) (currentBlockNumber r) (isFirstBlock r)
    (currentBlockData r) v (startAtBlock r) (onlyIrreversible r)
    (maxHistoryLength r).

Definition set_startAtBlock (v : Z) (r : Reader) : Reader :=
  mkReader (headBlockNumber r) (currentBlockNumber r) (isFirstBlock r)
    (currentBlockData r) (blockHistory r) v (onlyIrreversible r)
    (maxHistoryLength r).

(** ** Array operations used by the class *)

(** [a.length] as a JavaScript number. *)
Definition len {A} (a : list A) : Z := Z.of_nat (length a).

(** [a.splice(0, n)]: drops the first [n] elements; a negative [n] drops
    none and an [n] beyond the length drops all. *)
Definition splice_front {A} (n : Z) (a : list A) : list A :=
  drop (Z.to_nat n) a.

(** [a.splice(start)] for [start >= 0]: drops everything from index [start]
    to the end. *)
Definition splice_from {A} (start : Z) (a : list A) : list A :=
  take (Z.to_nat start) a.

(** [a.pop()]: what is left in the array. *)
Definition pop {A} (a : list A) : list A := removelast a.

(** Pairs a value with the proof that it is that value, so that a case
    analysis keeps the equation. *)
Definition inspect {A} (a : A) : {b : A | a = b} := exist _ a eq_refl.

(** ** The class *)

(** [new Reader(startAtBlock, onlyIrreversible, maxHistoryLength)]. *)
Definition constructor (startAtBlock : Z) (onlyIrreversible : bool)
    (maxHistoryLength : Z) : Reader :=
  {| headBlockNumber := 0;
     currentBlockNumber := startAtBlock - 1;
     isFirstBlock := true;
     currentBlockData := None;
     blockHistory := [];
     startAtBlock := startAtBlock;
     onlyIrreversible := onlyIrreversible;
     maxHistoryLength := maxHistoryLength |}.

(** The defaults of the constructor's parameters. *)
Definition default_startAtBlock : Z := 1.
Definition default_onlyIrreversible : bool := false.
Definition default_maxHistoryLength : Z := 600.

(** [historyExhausted()], the default body. *)
Definition exhausted_message : string :=
  "Fork resolution history has been exhausted, and no history exhaustion handling has been implemented.".

Definition historyExhausted {W} : M W unit :=
  throw (Error exhausted_message).

Section Reader.
Context {W : Type} `{ChainAdapter W}.

(** [await this.getHeadBlockNumber()] *)
Definition await_getHeadBlockNumber : M W Z :=
  fun s =>
    let '(r, w) := getHeadBlockNumber (world s) in
    (settled r, mkSys (reader s) w (trace s ++ [CallGetHeadBlockNumber])).

(** [await this.getBlock(n)] *)
Definition await_getBlock (n : Z) : M W Block :=
  fun s =>
    let '(r, w) := getBlock n (world s) in
    (settled r, mkSys (reader s) w (trace s ++ [CallGetBlock n])).

(** The [while] loop of [resolveFork]: while the history is not empty, take
    its newest entry, fetch again the block that has the current block's
    number, and either stop on a match or make the entry the current block
    and pop it.  [getBlock] is typed to resolve to a [Block], so the test
    [this.currentBlockData !== null] after the fetch always holds. *)
Equations? resolveFork_loop (s : Sys W) : Outcome unit * Sys W
    by wf (length (blockHistory (reader s))) lt :=
  resolveFork_loop s with inspect (last (blockHistory (reader s))) := {
    | exist _ None _ => (Ok tt, s)
    | exist _ (Some previousBlockData) Hlast
        with currentBlockData (reader s) := {
      | None => (Throw TypeError, s)
      | Some cur
          with inspect (await_getBlock (blockNumber (blockInfo cur)) s) := {
        | exist _ (Throw e, s1) _ => (Throw e, s1)
        | exist _ (Ok fetched, s1) Hget =>
          if String.eqb (previousBlockHash (blockInfo fetched))
                        (blockHash (blockInfo previousBlockData))
          then assign (set_currentBlockData (Some fetched)) s1
          else resolveFork_loop
                 (mkSys (set_blockHistory (pop (blockHistory (reader s1)))
                           (set_currentBlockData (Some previousBlockData)
                              (reader s1)))
                        (world s1) (trace s1))
        }
      }
  }.
Proof.
  unfold await_getBlock in Hget.
  destruct (getBlock _ _) as [r w]. injection Hget as _ <-.
  simpl. unfold pop.
  destruct (blockHistory (reader s)) as [|b l _] using rev_ind; [done|].
  rewrite removelast_last, length_app. simpl. lia.
Qed.

(** The state in which the next turn of the loop starts when a turn found
    no match: the entry [p] is current and popped, [getBlock(n)] was called. *)
Definition stepped_back (s : Sys W) (p : Block) (w : W) (n : Z) : Sys W :=
  mkSys (set_blockHistory (pop (blockHistory (reader s)))
           (set_currentBlockData (Some p) (reader s)))
        w (trace s ++ [CallGetBlock n]).

(** The handler [this.historyExhausted()] as the instance at hand has it:
    the default body, or a subclass's override. *)
Variable handler : M W unit.

Definition call_historyExhausted : M W unit :=
  emit CallHistoryExhausted ;; handler.

(** [resolveFork()].  The last statement reads
    [this.blockHistory[this.blockHistory.length - 1].blockInfo], which on an
    empty array is a property of [undefined]. *)
Definition resolveFork_with : M W unit :=
  r <- this ;;
  match currentBlockData r with
  | None => throw (Error "`currentBlockData` must not be null when initiating fork resolution.")
  | Some _ => ret tt
  end ;;
  resolveFork_loop ;;
  r <- this ;;
  when (len (blockHistory r) =? 0) call_historyExhausted ;;
  r <- this ;;
  match last (blockHistory r) with
  | None => throw TypeError
  | Some newest =>
    assign (set_currentBlockNumber (blockNumber (blockInfo newest) + 1))
  end.

(** [nextBlock()], block by block as the source comments them.

    "If we're on the head block, refresh current head block". *)
Definition refreshHead : M W unit :=
  r <- this ;;
  when ((currentBlockNumber r =? headBlockNumber r) || (headBlockNumber r =? 0))
    (h <- await_getHeadBlockNumber ;;
     assign (set_headBlockNumber h)).

(** "If currentBlockNumber is negative, it means we wrap to the end of the
    chain", when there is no block history. *)
Definition wrapToEnd : M W unit :=
  r <- this ;;
  when ((currentBlockNumber r <? 0) && (len (blockHistory r) =? 0))
    (assign (set_currentBlockNumber (headBlockNumber r + currentBlockNumber r)) ;;
     r <- this ;;
     assign (set_startAtBlock (currentBlockNumber r + 1))).

(** The branch that takes the fetched block as the new current block. *)
Definition commitBlock (blockData : Block) : M W unit :=
  r <- this ;;
  match currentBlockData r with
  | Some cur => assign (set_blockHistory (blockHistory r ++ [cur]))
  | None => ret tt
  end ;;
  r <- this ;;
  assign (set_blockHistory
            (splice_front (len (blockHistory r) - maxHistoryLength r)
               (blockHistory r))) ;;
  assign (set_currentBlockData (Some blockData)) ;;
  assign (set_currentBlockNumber (blockNumber (blockInfo blockData))).

(** "Continue if the new block is on the same chain as our history, or if
    we've just started": the test that decides between commit and rollback. *)
Definition continues (r : Reader) (unvalidatedBlockData : Block) : bool :=
  let expectedHash :=
    match currentBlockData r with
    | Some cur => blockHash (blockInfo cur)
    | None => "INVALID"
    end in
  let actualHash := previousBlockHash (blockInfo unvalidatedBlockData) in
  String.eqb expectedHash actualHash || (len (blockHistory r) =? 0).

(** "If we're now behind one or more new blocks, process them"; the value is
    [(isRollback, isNewBlock)]. *)
Definition processBehind : M W (bool * bool) :=
  r <- this ;;
  if currentBlockNumber r <? headBlockNumber r then
    unvalidatedBlockData <- await_getBlock (currentBlockNumber r + 1) ;;
    r <- this ;;
    if continues r unvalidatedBlockData
    then
      commitBlock unvalidatedBlockData ;;
      ret (false, true)
    else
      resolveFork_with ;;
      h <- await_getHeadBlockNumber ;;
      assign (set_headBlockNumber h) ;;
      ret (true, true)
  else ret (false, false).

(** The history a commit leaves: the block that was current is put on it,
    then it is trimmed to [maxHistoryLength]. *)
Definition pushedAndTrimmed (r : Reader) : list Block :=
  let pushed :=
    match currentBlockData r with
    | Some cur => blockHistory r ++ [cur]
    | None => blockHistory r
    end in
  splice_front (len pushed - maxHistoryLength r) pushed.

(** "Let handler know if this is the earliest block we'll send", and the
    return. *)
Definition finish (flags : bool * bool) : M W (Block * bool * bool) :=
  r <- this ;;
  assign (set_isFirstBlock (currentBlockNumber r =? startAtBlock r)) ;;
  r <- this ;;
  match currentBlockData r with
  | None => throw (Error "currentBlockData must not be null.")
  | Some cur => ret (cur, fst flags, snd flags)
  end.

(** The whole method; the value is [(block, isRollback, isNewBlock)]. *)
Definition nextBlock_with : M W (Block * bool * bool) :=
  refreshHead ;;
  wrapToEnd ;;
  flags <- processBehind ;;
  finish flags.

(** The [for] loop of [seekToBlock]: [i] counts the indices still to visit,
    so the entry looked at is [hist[i - 1]]; the value is [toDelete] when the
    loop ends. *)
Fixpoint seek_scan (hist : list Block) (n : Z) (i : nat) (toDelete : Z) : Z :=
  match i with
  | O => toDelete
  | S i' =>
    match hist !! i' with
    | Some b =>
      if blockNumber (blockInfo b) =? n then toDelete
      else seek_scan hist n i' (toDelete + 1)
    | None => toDelete
    end
  end.

(** [seekToBlock(n)] *)
Definition seekToBlock (n : Z) : M W unit :=
  assign (set_currentBlockData None) ;;
  assign (set_headBlockNumber 0) ;;
  r <- this ;;
  if n <? startAtBlock r
  then throw (Error "Cannot seek to block before configured startAtBlock.")
  else if n =? 1
  then
    assign (set_blockHistory []) ;;
    assign (set_currentBlockNumber 0)
  else
    r <- this ;;
    let toDelete :=
      seek_scan (blockHistory r) n (length (blockHistory r)) (-1) in
    when (0 <=? toDelete)
      (assign (set_blockHistory (splice_from toDelete (blockHistory r))) ;;
       r <- this ;;
       assign (set_currentBlockData (last (blockHistory r))) ;;
       assign (set_blockHistory (pop (blockHistory r)))) ;;
    assign (set_currentBlockNumber (n - 1)) ;;
    r <- this ;;
    match currentBlockData r with
    | Some _ => ret tt
    | None =>
      b <- await_getBlock (currentBlockNumber r) ;;
      assign (set_currentBlockData (Some b))
    end.

End Reader.

(** The class as shipped: [historyExhausted] is not overridden. *)
Definition resolveFork {W} `{ChainAdapter W} : M W unit :=
  resolveFork_with historyExhausted.

Definition nextBlock {W} `{ChainAdapter W} : M W (Block * bool * bool) :=
  nextBlock_with historyExhausted.

(** ** Running the reader *)

(** The state a method call leaves behind, whether it returned or threw. *)
Definition after {W A} (m : M W A) (s : Sys W) : Sys W := snd (m s).

(** [n] calls of [nextBlock()] in a row, each on the state the one before
    left. *)
Fixpoint advance {W} `{ChainAdapter W} (n : nat) (s : Sys W) : Sys W :=
  match n with
  | O => s
  | S n' => advance n' (after nextBlock s)
  end.

(** The adapter's state after [k] calls of [getHeadBlockNumber()] and no
    other. *)
Fixpoint pollHead {W} `{ChainAdapter W} (k : nat) (w : W) : W :=
  match k with
  | O => w
  | S k' => pollHead k' (snd (getHeadBlockNumber w))
  end.

(** A freshly constructed reader on an adapter in state [w]. *)
Definition boot {W} (r : Reader) (w : W) : Sys W := mkSys r w [].

(** How often the history handler ran. *)
Definition is_historyExhausted (e : Event) : bool :=
  match e with CallHistoryExhausted => true | _ => false end.

Definition exhausted_count (t : list Event) : nat :=
  length (List.filter is_historyExhausted t).

(** ** A simulated chain

    An adapter over a chain that has a main branch ["A"] and, from block
    [simForkAt] on, a branch named [simBranch]; it never fails and answers
    [getBlock(n)] with a block numbered [n]. *)
Record SimChain := mkSimChain {
  simHead : Z;
  simForkAt : Z;
  simBranch : string
}.

Definition simHash (c : SimChain) (n : Z) : string :=
  (if n <? simForkAt c then "A" else simBranch c) +:+ pretty n.

Definition simBlock (c : SimChain) (n : Z) : Block :=
  mkBlock (mkBlockInfo n (simHash c n) (simHash c (n - 1))) [].

#[global] Instance simAdapter : ChainAdapter SimChain := {
  getHeadBlockNumber c := (inr (simHead c), c);
  getBlock n c := (inr (simBlock c n), c)
}.

(** The chain reorganises under the reader: the adapter now reads [c]. *)
Definition reorg (c : SimChain) (s : Sys SimChain) : Sys SimChain :=
  mkSys (reader s) c (trace s).

(** The main branch with head [h]. *)
Definition mainChain (h : Z) : SimChain := mkSimChain h (h + 1) "A".

(** A default reader that has called [nextBlock()] [n] times on a main
    branch whose head is block 10. *)
Definition readTo (n : nat) : Sys SimChain :=
  advance n
    (boot (constructor default_startAtBlock default_onlyIrreversible
             default_maxHistoryLength)
          (mainChain 10)).

(** A reader constructed with [startAtBlock = -5] and the defaults, on a main
    branch whose head is block 100. *)
Definition tailing : Sys SimChain :=
  boot (constructor (-5) default_onlyIrreversible default_maxHistoryLength)
       (mainChain 100).

(** A reader with [maxHistoryLength = 2] that has read blocks 1 to 5: it
    holds block 5 and has blocks 3 and 4 in its history. *)
Definition shortHistory : Sys SimChain :=
  advance 5 (boot (constructor 1 false 2) (mainChain 10)).

(** Under that reader the chain forks off after block 4: one block deep. *)
Definition shallowFork : Sys SimChain :=
  reorg (mkSimChain 10 5 "B") shortHistory.

(** Under that reader the chain forks off after block 1: four blocks deep. *)
Definition deepFork : Sys SimChain :=
  reorg (mkSimChain 10 2 "B") shortHistory.

(** ** Predicates on the reader *)

(** The reader is on block [h], holds it as [cur], and [h] is the head it
    knows (or it knows none). *)
Definition caught_up (h : Z) (cur : Block) (r : Reader) : Prop :=
  currentBlockData r = Some cur /\
  currentBlockNumber r = h /\
  (headBlockNumber r = h \/ headBlockNumber r = 0).

(** What the loop of [resolveFork] leaves alone in the reader. *)
Definition loop_keeps (r r1 : Reader) : Prop :=
  headBlockNumber r1 = headBlockNumber r /\
  currentBlockNumber r1 = currentBlockNumber r /\
  isFirstBlock r1 = isFirstBlock r /\
  startAtBlock r1 = startAtBlock r /\
  onlyIrreversible r1 = onlyIrreversible r /\
  maxHistoryLength r1 = maxHistoryLength r.

(** [getBlock(n)], when it resolves, resolves to a block numbered [n]. *)
Definition numbers_as_asked (W : Type) `{ChainAdapter W} : Prop :=
  forall (n : Z) (w w' : W) (b : Block),
    getBlock n w = (inr b, w') -> blockNumber (blockInfo b) = n.

(** Every block the reader holds, current or in the history, is numbered
    [k] or more. *)
Definition numbered_from (k : Z) (r : Reader) : Prop :=
  Forall (fun b => k <= blockNumber (blockInfo b)) (blockHistory r) /\
  (forall c, currentBlockData r = Some c -> k <= blockNumber (blockInfo c)).

(** The reader holds its first block, numbered [k], and the head it knows is
    further on. *)
Definition on_first (k : Z) (r : Reader) : Prop :=
  startAtBlock r = k /\
  currentBlockNumber r = k /\
  k < headBlockNumber r /\
  blockHistory r = [] /\
  numbered_from k r.

(** The reader has gone past its first block, numbered [k]. *)
Definition past_first (k : Z) (r : Reader) : Prop :=
  startAtBlock r = k /\
  k < currentBlockNumber r /\
  numbered_from k r.


(** The reader as [seekToBlock] has it once it has gone through the
    history, before it looks whether a block is left to fetch. *)
Definition sought (n : Z) (r : Reader) : Reader :=
  let cleared := set_headBlockNumber 0 (set_currentBlockData None r) in
  let toDelete :=
    seek_scan (blockHistory r) n (length (blockHistory r)) (-1) in
  set_currentBlockNumber (n - 1)
    (if 0 <=? toDelete
     then set_blockHistory (pop (splice_from toDelete (blockHistory r)))
            (set_currentBlockData
               (last (splice_from toDelete (blockHistory r))) cleared)
     else cleared).

(** ** Counting adapter calls *)

Definition is_getBlock (e : Event) : bool :=
  match e with CallGetBlock _ => true | _ => false end.

Definition is_getHeadBlockNumber (e : Event) : bool :=
  match e with CallGetHeadBlockNumber => true | _ => false end.

(** How often [getBlock] was called. *)
Definition getBlock_count (t : list Event) : nat :=
  length (List.filter is_getBlock t).

(** How often [getHeadBlockNumber] was called. *)
Definition getHead_count (t : list Event) : nat :=
  length (List.filter is_getHeadBlockNumber t).

(** ** An adapter that gives out

    It answers its first [budget] calls from a chain and rejects every call
    after those. *)
Record Flaky := mkFlaky {
  budget : nat;
  chain : SimChain
}.

#[global] Instance flakyAdapter : ChainAdapter Flaky := {
  getHeadBlockNumber f :=
    match budget f with
    | O => (inl "unavailable", f)
    | S k => (inr (simHead (chain f)), mkFlaky k (chain f))
    end;
  getBlock n f :=
    match budget f with
    | O => (inl "unavailable", f)
    | S k => (inr (simBlock (chain f) n), mkFlaky k (chain f))
    end
}.

(** The state of a reader whose adapter is replaced by one that answers
    [k] more calls from the same chain. *)
Definition flaky (k : nat) (s : Sys SimChain) : Sys Flaky :=
  mkSys (reader s) (mkFlaky k (world s)) (trace s).

(** * Properties *)

(** ** The array operations and the first steps, on small inputs *)

Example splice_front_keeps_short : splice_front (2 - 3) [1; 2] = [1; 2].
Proof. reflexivity. Qed.

Example splice_front_trims_oldest :
  splice_front (5 - 3) [1; 2; 3; 4; 5] = [3; 4; 5].
Proof. reflexivity. Qed.

Example splice_front_zero_bound : splice_front (2 - 0) [1; 2] = [].
Proof. reflexivity. Qed.

Example splice_from_cuts_tail : splice_from 1 [1; 2; 3; 4; 5] = [1].
Proof. reflexivity. Qed.

Example pop_empty : pop (@nil Z) = [].
Proof. reflexivity. Qed.

Example seek_scan_newest :
  seek_scan (simBlock (mainChain 10) <$> [1; 2; 3; 4; 5]) 5 5 (-1) = -1.
Proof. reflexivity. Qed.

Example seek_scan_inside :
  seek_scan (simBlock (mainChain 10) <$> [1; 2; 3; 4; 5]) 3 5 (-1) = 1.
Proof. reflexivity. Qed.

Example seek_scan_absent :
  seek_scan (simBlock (mainChain 10) <$> [1; 2; 3; 4; 5]) 9 5 (-1) = 4.
Proof. reflexivity. Qed.

Example first_call_of_default_reader :
  fst (nextBlock (readTo 0)) = Ok (simBlock (mainChain 10) 1, false, true) /\
  isFirstBlock (reader (readTo 1)) = true /\
  trace (readTo 1) = [CallGetHeadBlockNumber; CallGetBlock 1].
Proof. vm_compute. repeat split; congruence. Qed.

Example shallow_fork_rolls_back :
  fst (nextBlock shallowFork) =
    Ok (simBlock (mkSimChain 10 5 "B") 5, true, true) /\
  currentBlockNumber (reader (after nextBlock shallowFork)) = 5 /\
  trace (after nextBlock shallowFork) =
    trace shortHistory
    ++ [CallGetBlock 6; CallGetBlock 5; CallGetHeadBlockNumber].
Proof. vm_compute. repeat split; congruence. Qed.

Example seek_to_first_block :
  reader (after (seekToBlock 1) (readTo 3)) =
    mkReader 0 0 false None [] 1 false 600.
Proof. vm_compute. reflexivity. Qed.

Example seek_with_empty_history_fetches :
  trace (after (seekToBlock 7) (readTo 1)) = trace (readTo 1) ++ [CallGetBlock 6] /\
  currentBlockNumber (reader (after (seekToBlock 7) (readTo 1))) = 6 /\
  currentBlockData (reader (after (seekToBlock 7) (readTo 1))) =
    Some (simBlock (mainChain 10) 6).
Proof. vm_compute. repeat split; congruence. Qed.

(** ** The loop of [resolveFork], one turn at a time *)

Section Loop.
Context {W : Type} `{ChainAdapter W}.

Lemma resolveFork_loop_exit (s : Sys W) :
  last (blockHistory (reader s)) = None -> resolveFork_loop s = (Ok tt, s).
Proof.
  intros E. simp resolveFork_loop.
  destruct (inspect (last (blockHistory (reader s)))) as [[p|] E'];
    [congruence|]. by simp resolveFork_loop.
Qed.

Lemma resolveFork_loop_null (s : Sys W) p :
  last (blockHistory (reader s)) = Some p ->
  currentBlockData (reader s) = None ->
  resolveFork_loop s = (Throw TypeError, s).
Proof.
  intros E Ec. simp resolveFork_loop.
  destruct (inspect (last (blockHistory (reader s)))) as [[p'|] E'];
    [|congruence].
  simp resolveFork_loop. rewrite Ec. by simp resolveFork_loop.
Qed.

Lemma resolveFork_loop_turn (s : Sys W) p cur :
  last (blockHistory (reader s)) = Some p ->
  currentBlockData (reader s) = Some cur ->
  resolveFork_loop s =
  match await_getBlock (blockNumber (blockInfo cur)) s with
  | (Throw e, s1) => (Throw e, s1)
  | (Ok fetched, s1) =>
    if String.eqb (previousBlockHash (blockInfo fetched))
                  (blockHash (blockInfo p))
    then assign (set_currentBlockData (Some fetched)) s1
    else resolveFork_loop
           (mkSys (set_blockHistory (pop (blockHistory (reader s1)))
                     (set_currentBlockData (Some p) (reader s1)))
                  (world s1) (trace s1))
  end.
Proof.
  intros E Ec. simp resolveFork_loop.
  destruct (inspect (last (blockHistory (reader s)))) as [[p'|] E'];
    [|congruence].
  assert (p' = p) as -> by congruence.
  simp resolveFork_loop. rewrite Ec. simp resolveFork_loop.
  destruct (inspect (await_getBlock (blockNumber (blockInfo cur)) s))
    as [[[fetched|e] s1] E1]; simp resolveFork_loop; rewrite E1; [|done].
  destruct (String.eqb _ _); [done|]. by rewrite resolveFork_loop_equation_1.
Qed.

(** Induction along the turns of the loop. *)
Lemma resolveFork_loop_cases (Q : Sys W -> Outcome unit * Sys W -> Prop) :
  (forall s, blockHistory (reader s) = [] -> Q s (Ok tt, s)) ->
  (forall s h p,
      blockHistory (reader s) = h ++ [p] ->
      currentBlockData (reader s) = None ->
      Q s (Throw TypeError, s)) ->
  (forall s h p cur e w,
      blockHistory (reader s) = h ++ [p] ->
      currentBlockData (reader s) = Some cur ->
      getBlock (blockNumber (blockInfo cur)) (world s) = (inl e, w) ->
      Q s (Throw (AdapterError e),
           mkSys (reader s) w
             (trace s ++ [CallGetBlock (blockNumber (blockInfo cur))]))) ->
  (forall s h p cur fetched w,
      blockHistory (reader s) = h ++ [p] ->
      currentBlockData (reader s) = Some cur ->
      getBlock (blockNumber (blockInfo cur)) (world s) = (inr fetched, w) ->
      previousBlockHash (blockInfo fetched) = blockHash (blockInfo p) ->
      Q s (Ok tt,
           mkSys (set_currentBlockData (Some fetched) (reader s)) w
             (trace s ++ [CallGetBlock (blockNumber (blockInfo cur))]))) ->
  (forall s h p cur fetched w res,
      blockHistory (reader s) = h ++ [p] ->
      currentBlockData (reader s) = Some cur ->
      getBlock (blockNumber (blockInfo cur)) (world s) = (inr fetched, w) ->
      previousBlockHash (blockInfo fetched) <> blockHash (blockInfo p) ->
      Q (stepped_back s p w (blockNumber (blockInfo cur))) res ->
      Q s res) ->
  forall s, Q s (resolveFork_loop s).
Proof.
  intros Hexit Hnull Hfail Hmatch Hstep s.
  remember (length (blockHistory (reader s))) as n eqn:Hn.
  revert s Hn. induction n as [n IH] using lt_wf_ind. intros s Hn.
  destruct (blockHistory (reader s)) as [|p h _] eqn:Eh using rev_ind.
  { rewrite resolveFork_loop_exit by (by rewrite Eh). by apply Hexit. }
  assert (last (blockHistory (reader s)) = Some p) as El
    by (by rewrite Eh, last_snoc).
  destruct (currentBlockData (reader s)) as [cur|] eqn:Ec.
  2:{ rewrite (resolveFork_loop_null s p) by done. by eapply Hnull. }
  rewrite (resolveFork_loop_turn s p cur) by done.
  unfold await_getBlock.
  destruct (getBlock _ _) as [[e|fetched] w] eqn:Eg; simpl.
  { by apply (Hfail s h p cur e w). }
  destruct (String.eqb_spec (previousBlockHash (blockInfo fetched))
              (blockHash (blockInfo p))) as [Heq|Hne].
  { unfold assign. simpl. by apply (Hmatch s h p cur fetched w). }
  apply (Hstep s h p cur fetched w _ Eh Ec Eg Hne).
  apply (IH (length h)).
  - rewrite Hn, length_app. simpl. lia.
  - simpl. unfold pop. by rewrite Eh, removelast_last.
Qed.

End Loop.

(** ** Seeking before the start *)

Section Seek.
Context {W : Type} `{ChainAdapter W}.

(** C5, as the code has it: [seekToBlock(n)] with [n < startAtBlock] throws
    the invalid-argument error without calling the adapter (its state and the
    call log are unchanged) and leaves [currentBlockNumber], [blockHistory] and
    [startAtBlock] as they were; but by then it has already cleared
    [currentBlockData] and reset [headBlockNumber] to 0. *)
Theorem seekToBlock_before_start (s : Sys W) (n : Z) :
  n < startAtBlock (reader s) ->
  seekToBlock n s =
    (Throw (Error "Cannot seek to block before configured startAtBlock."),
     mkSys (set_headBlockNumber 0 (set_currentBlockData None (reader s)))
           (world s) (trace s)).
Proof.
  intros Hlt. unfold seekToBlock, bind, assign, this, throw. simpl.
  apply Z.ltb_lt in Hlt. by rewrite Hlt.
Qed.

End Seek.

(** The default reader after three blocks, asked to seek to block 0. *)
Lemma seekToBlock_before_start_witness :
  0 < startAtBlock (reader (readTo 3)) /\
  seekToBlock 0 (readTo 3) =
    (Throw (Error "Cannot seek to block before configured startAtBlock."),
     mkSys (set_headBlockNumber 0 (set_currentBlockData None (reader (readTo 3))))
           (world (readTo 3)) (trace (readTo 3))).
Proof.
  assert (0 < startAtBlock (reader (readTo 3))) as Hlt
    by (vm_compute; reflexivity).
  split; [exact Hlt|].
  exact (seekToBlock_before_start (readTo 3) 0 Hlt).
Defined.

(** C5 as stated fails: after the rejected [seekToBlock(0)] the reader no
    longer holds the block it held, and its head number is 0, not 10. *)
Lemma seekToBlock_before_start_mutates :
  0 < startAtBlock (reader (readTo 3)) /\
  fst (seekToBlock 0 (readTo 3)) =
    Throw (Error "Cannot seek to block before configured startAtBlock.") /\
  currentBlockData (reader (readTo 3)) = Some (simBlock (mainChain 10) 3) /\
  currentBlockData (reader (after (seekToBlock 0) (readTo 3))) = None /\
  headBlockNumber (reader (readTo 3)) = 10 /\
  headBlockNumber (reader (after (seekToBlock 0) (readTo 3))) = 0 /\
  reader (after (seekToBlock 0) (readTo 3)) <> reader (readTo 3).
Proof.
  vm_compute. repeat split; congruence.
Qed.

(** ** Running and sequencing *)

Ltac run_reader :=
  unfold await_getHeadBlockNumber, await_getBlock, settled,
    bind, this, assign, emit, when, ret, throw, after in *;
  simpl in *.

Lemma advance_snoc {W} `{ChainAdapter W} (n : nat) (s : Sys W) :
  advance (S n) s = after nextBlock (advance n s).
Proof.
  revert s. induction n as [|n IH]; intros s; [done|].
  change (advance (S (S n)) s) with (advance (S n) (after nextBlock s)).
  by rewrite IH.
Qed.

(** ** The blocks of [nextBlock], each in closed form *)

Section Blocks.
Context {W : Type} `{ChainAdapter W}.

Lemma refreshHead_eq (s : Sys W) :
  refreshHead s =
  if (currentBlockNumber (reader s) =? headBlockNumber (reader s))
     || (headBlockNumber (reader s) =? 0)
  then
    match getHeadBlockNumber (world s) with
    | (inr h, w) =>
      (Ok tt, mkSys (set_headBlockNumber h (reader s)) w
                (trace s ++ [CallGetHeadBlockNumber]))
    | (inl e, w) =>
      (Throw (AdapterError e),
       mkSys (reader s) w (trace s ++ [CallGetHeadBlockNumber]))
    end
  else (Ok tt, s).
Proof.
  unfold refreshHead. run_reader.
  destruct (_ || _); [|done].
  by destruct (getHeadBlockNumber (world s)) as [[e|h] w].
Qed.

Lemma wrapToEnd_eq (s : Sys W) :
  wrapToEnd s =
  (Ok tt,
   if (currentBlockNumber (reader s) <? 0)
      && (len (blockHistory (reader s)) =? 0)
   then
     mkSys (set_startAtBlock
              (headBlockNumber (reader s) + currentBlockNumber (reader s) + 1)
              (set_currentBlockNumber
                 (headBlockNumber (reader s) + currentBlockNumber (reader s))
                 (reader s)))
           (world s) (trace s)
   else s).
Proof.
  unfold wrapToEnd. run_reader. by destruct (_ && _).
Qed.

Lemma commitBlock_eq (b : Block) (s : Sys W) :
  commitBlock b s =
  (Ok tt,
   mkSys (set_currentBlockNumber (blockNumber (blockInfo b))
            (set_currentBlockData (Some b)
               (set_blockHistory (pushedAndTrimmed (reader s)) (reader s))))
         (world s) (trace s)).
Proof.
  unfold commitBlock, pushedAndTrimmed. run_reader.
  by destruct (currentBlockData (reader s)).
Qed.

Lemma finish_eq (flags : bool * bool) (s : Sys W) :
  finish flags s =
  let r := set_isFirstBlock
             (currentBlockNumber (reader s) =? startAtBlock (reader s))
             (reader s) in
  (match currentBlockData (reader s) with
   | None => Throw (Error "currentBlockData must not be null.")
   | Some cur => Ok (cur, fst flags, snd flags)
   end,
   mkSys r (world s) (trace s)).
Proof.
  unfold finish. run_reader. by destruct (currentBlockData (reader s)).
Qed.

Variable handler : M W unit.

Lemma processBehind_eq (s : Sys W) :
  processBehind handler s =
  if currentBlockNumber (reader s) <? headBlockNumber (reader s) then
    let n := currentBlockNumber (reader s) + 1 in
    match getBlock n (world s) with
    | (inl e, w) =>
      (Throw (AdapterError e),
       mkSys (reader s) w (trace s ++ [CallGetBlock n]))
    | (inr b, w) =>
      let s1 := mkSys (reader s) w (trace s ++ [CallGetBlock n]) in
      if continues (reader s) b
      then (Ok (false, true), snd (commitBlock b s1))
      else
        match resolveFork_with handler s1 with
        | (Throw e, s2) => (Throw e, s2)
        | (Ok _, s2) =>
          match getHeadBlockNumber (world s2) with
          | (inl e, w') =>
            (Throw (AdapterError e),
             mkSys (reader s2) w' (trace s2 ++ [CallGetHeadBlockNumber]))
          | (inr h, w') =>
            (Ok (true, true),
             mkSys (set_headBlockNumber h (reader s2)) w'
               (trace s2 ++ [CallGetHeadBlockNumber]))
          end
        end
    end
  else (Ok (false, false), s).
Proof.
  unfold processBehind, bind at 1, this.
  destruct (_ <? _); [|done].
  unfold bind at 1, await_getBlock.
  destruct (getBlock _ _) as [[e|b] w]; simpl; [done|].
  unfold bind at 1. simpl.
  destruct (continues (reader s) b).
  - unfold bind, ret. by rewrite commitBlock_eq.
  - unfold bind at 1.
    destruct (resolveFork_with handler _) as [[[]|e] s2]; [|done].
    run_reader. by destruct (getHeadBlockNumber (world s2)) as [[e|h] w'].
Qed.

Lemma nextBlock_with_eq (s : Sys W) :
  nextBlock_with handler s =
  match refreshHead s with
  | (Throw e, s1) => (Throw e, s1)
  | (Ok _, s1) =>
    match processBehind handler (snd (wrapToEnd s1)) with
    | (Throw e, s2) => (Throw e, s2)
    | (Ok flags, s2) => finish flags s2
    end
  end.
Proof.
  unfold nextBlock_with, bind.
  destruct (refreshHead s) as [[[]|e] s1]; [|done].
  rewrite wrapToEnd_eq. simpl.
  by destruct (processBehind handler _) as [[flags|e] s2].
Qed.

End Blocks.


(** ** Caught up with the head *)

Section CaughtUp.
Context {W : Type} `{ChainAdapter W}.

Lemma pollHead_snoc (k : nat) (w : W) :
  pollHead (S k) w = snd (getHeadBlockNumber (pollHead k w)).
Proof.
  revert w. induction k as [|k IH]; intros w; [done|].
  change (pollHead (S (S k)) w)
    with (pollHead (S k) (snd (getHeadBlockNumber w))).
  by rewrite IH.
Qed.

Lemma nextBlock_caught_up_once (s : Sys W) (h : Z) (cur : Block) :
  fst (getHeadBlockNumber (world s)) = inr h ->
  0 <= h ->
  caught_up h cur (reader s) ->
  fst (nextBlock s) = Ok (cur, false, false) /\
  caught_up h cur (reader (after nextBlock s)) /\
  blockHistory (reader (after nextBlock s)) = blockHistory (reader s) /\
  world (after nextBlock s) = snd (getHeadBlockNumber (world s)).
Proof.
  intros Hhead Hpos (Hcur & Hnum & Hknown).
  unfold after, nextBlock. rewrite nextBlock_with_eq, refreshHead_eq.
  assert (((currentBlockNumber (reader s) =? headBlockNumber (reader s))
           || (headBlockNumber (reader s) =? 0)) = true) as ->.
  { apply orb_true_iff. destruct Hknown as [->| ->]; lia. }
  destruct (getHeadBlockNumber (world s)) as [[e|h'] w']; simpl in Hhead;
    [done|].
  injection Hhead as ->.
  rewrite wrapToEnd_eq. simpl.
  assert ((currentBlockNumber (reader s) <? 0) = false) as -> by lia. simpl.
  rewrite processBehind_eq. simpl.
  assert ((currentBlockNumber (reader s) <? h) = false) as -> by lia.
  rewrite finish_eq. simpl. rewrite Hcur. unfold caught_up. simpl.
  repeat split; auto.
Qed.

(** C9: while the reader is on the head block and the adapter keeps
    reporting that head, every further [nextBlock()] returns the block the
    reader holds with [isRollback = false] and [isNewBlock = false], and
    [currentBlockNumber], [currentBlockData] and [blockHistory] stay as they
    are. *)
Theorem nextBlock_caught_up (s : Sys W) (h : Z) (cur : Block) (n : nat) :
  (forall k, fst (getHeadBlockNumber (pollHead k (world s))) = inr h) ->
  0 <= h ->
  currentBlockData (reader s) = Some cur ->
  currentBlockNumber (reader s) = h ->
  headBlockNumber (reader s) = h \/ headBlockNumber (reader s) = 0 ->
  fst (nextBlock (advance n s)) = Ok (cur, false, false) /\
  currentBlockNumber (reader (advance (S n) s)) = h /\
  currentBlockData (reader (advance (S n) s)) = Some cur /\
  blockHistory (reader (advance (S n) s)) = blockHistory (reader s).
Proof.
  intros Hhead Hpos Hcur Hnum Hknown.
  assert (caught_up h cur (reader (advance n s)) /\
          blockHistory (reader (advance n s)) = blockHistory (reader s) /\
          world (advance n s) = pollHead n (world s))
    as (Hinv & Hhist & Hworld).
  { induction n as [|n (IHc & IHh & IHw)]; [by repeat split|].
    rewrite advance_snoc, pollHead_snoc.
    destruct (nextBlock_caught_up_once (advance n s) h cur)
      as (_ & Hc & Hh & Hw); [by rewrite IHw|done..|].
    by rewrite Hh, Hw, IHw. }
  rewrite advance_snoc.
  destruct (nextBlock_caught_up_once (advance n s) h cur)
    as (Hret & (Hc & Hn & _) & Hh & _); [by rewrite Hworld|done..|].
  repeat split; [done..|]. by rewrite Hh.
Qed.

End CaughtUp.

Lemma pollHead_sim (k : nat) (c : SimChain) : pollHead k c = c.
Proof. induction k as [|k IH]; [done|]. exact IH. Qed.

(** The default reader after ten blocks of a chain whose head is block 10,
    called three more times. *)
Lemma nextBlock_caught_up_witness :
  fst (nextBlock (advance 3 (readTo 10))) =
    Ok (simBlock (mainChain 10) 10, false, false) /\
  currentBlockNumber (reader (advance 4 (readTo 10))) = 10 /\
  currentBlockData (reader (advance 4 (readTo 10))) =
    Some (simBlock (mainChain 10) 10) /\
  blockHistory (reader (advance 4 (readTo 10))) =
    blockHistory (reader (readTo 10)).
Proof.
  apply (nextBlock_caught_up (readTo 10) 10 (simBlock (mainChain 10) 10) 3).
  - intros k. rewrite pollHead_sim. vm_compute. reflexivity.
  - lia.
  - vm_compute. reflexivity.
  - vm_compute. reflexivity.
  - left. vm_compute. reflexivity.
Defined.

(** ** Fork resolution *)

Section Fork.
Context {W : Type} `{ChainAdapter W}.

Lemma exhausted_count_snoc (t : list Event) (e : Event) :
  exhausted_count (t ++ [e]) =
  (exhausted_count t + if is_historyExhausted e then 1 else 0)%nat.
Proof.
  unfold exhausted_count. rewrite List.filter_app, length_app. simpl.
  by destruct (is_historyExhausted e).
Qed.

(** The loop changes only [currentBlockData] and [blockHistory], of which
    it keeps a prefix, and never runs the handler. *)
Lemma resolveFork_loop_frame (s : Sys W) :
  loop_keeps (reader s) (reader (snd (resolveFork_loop s))) /\
  blockHistory (reader (snd (resolveFork_loop s)))
    `prefix_of` blockHistory (reader s) /\
  exhausted_count (trace (snd (resolveFork_loop s))) =
    exhausted_count (trace s).
Proof.
  apply (resolveFork_loop_cases (fun s res =>
    loop_keeps (reader s) (reader (snd res)) /\
    blockHistory (reader (snd res)) `prefix_of` blockHistory (reader s) /\
    exhausted_count (trace (snd res)) = exhausted_count (trace s))).
  - by intros s0 _.
  - by intros s0 h p _ _.
  - intros s0 h p cur e w _ _ _. simpl.
    rewrite exhausted_count_snoc. simpl. repeat split; [done|lia].
  - intros s0 h p cur fetched w _ _ _ _. simpl.
    rewrite exhausted_count_snoc. simpl. repeat split; [done|lia].
  - intros s0 h p cur fetched w res Eh _ _ _ (Hk & Hp & Hc).
    simpl in *. rewrite exhausted_count_snoc in Hc. simpl in Hc.
    split; [exact Hk|]. split; [|lia].
    etrans; [exact Hp|]. unfold pop. rewrite Eh, removelast_last.
    by apply prefix_app_r.
Qed.

(** Entered with a current block, the loop ends with one, and throws only
    what the adapter rejected with. *)
Lemma resolveFork_loop_outcome (s : Sys W) :
  currentBlockData (reader s) <> None ->
  currentBlockData (reader (snd (resolveFork_loop s))) <> None /\
  forall e, fst (resolveFork_loop s) = Throw e -> exists msg, e = AdapterError msg.
Proof.
  apply (resolveFork_loop_cases (fun s res =>
    currentBlockData (reader s) <> None ->
    currentBlockData (reader (snd res)) <> None /\
    forall e, fst res = Throw e -> exists msg, e = AdapterError msg)).
  - intros s0 _ Hc. split; [done|]. simpl. congruence.
  - intros s0 h p _ Hn Hc. congruence.
  - intros s0 h p cur e w _ _ _ Hc. split; [done|].
    simpl. intros e' [= <-]. by exists e.
  - intros s0 h p cur fetched w _ _ _ _ _. split; [done|]. simpl. congruence.
  - intros s0 h p cur fetched w res _ _ _ _ IH _. by apply IH.
Qed.

Variable handler : M W unit.

Lemma resolveFork_with_eq (s : Sys W) :
  resolveFork_with handler s =
  match currentBlockData (reader s) with
  | None =>
    (Throw (Error "`currentBlockData` must not be null when initiating fork resolution."), s)
  | Some _ =>
    match resolveFork_loop s with
    | (Throw e, s1) => (Throw e, s1)
    | (Ok _, s1) =>
      match blockHistory (reader s1) with
      | [] =>
        match handler (mkSys (reader s1) (world s1)
                         (trace s1 ++ [CallHistoryExhausted])) with
        | (Throw e, s2) => (Throw e, s2)
        | (Ok _, s2) =>
          match last (blockHistory (reader s2)) with
          | None => (Throw TypeError, s2)
          | Some newest =>
            (Ok tt,
             mkSys (set_currentBlockNumber
                      (blockNumber (blockInfo newest) + 1) (reader s2))
                   (world s2) (trace s2))
          end
        end
      | _ :: _ =>
        match last (blockHistory (reader s1)) with
        | None => (Throw TypeError, s1)
        | Some newest =>
          (Ok tt,
           mkSys (set_currentBlockNumber
                    (blockNumber (blockInfo newest) + 1) (reader s1))
                 (world s1) (trace s1))
        end
      end
    end
  end.
Proof.
  unfold resolveFork_with, call_historyExhausted. run_reader.
  destruct (currentBlockData (reader s)); [|done]. simpl.
  destruct (resolveFork_loop s) as [[[]|e] s1]; [|done]. simpl.
  destruct (blockHistory (reader s1)) as [|b' l] eqn:Eh; simpl.
  - destruct (handler _) as [[[]|e] s2]; [|done].
    by destruct (last (blockHistory (reader s2))).
  - rewrite Eh. by destruct (last (b' :: l)).
Qed.

(** C6: a turn of the loop in which the block fetched again names the newest
    history entry as its predecessor ends the loop, with that block as
    [currentBlockData] and the entry still the newest of the history; and
    whenever the loop ends with a history that is not empty, [resolveFork]
    sets [currentBlockNumber] to the newest entry's block number plus one. *)
Theorem resolveFork_match_stops :
  (forall (s : Sys W) (h : list Block) (p cur fetched : Block) (w : W),
      blockHistory (reader s) = h ++ [p] ->
      currentBlockData (reader s) = Some cur ->
      getBlock (blockNumber (blockInfo cur)) (world s) = (inr fetched, w) ->
      previousBlockHash (blockInfo fetched) = blockHash (blockInfo p) ->
      exists s1,
        resolveFork_loop s = (Ok tt, s1) /\
        currentBlockData (reader s1) = Some fetched /\
        blockHistory (reader s1) = h ++ [p] /\
        last (blockHistory (reader s1)) = Some p) /\
  (forall (s s1 : Sys W),
      currentBlockData (reader s) <> None ->
      resolveFork_loop s = (Ok tt, s1) ->
      blockHistory (reader s1) <> [] ->
      exists newest s2,
        last (blockHistory (reader s1)) = Some newest /\
        resolveFork_with handler s = (Ok tt, s2) /\
        currentBlockNumber (reader s2) = blockNumber (blockInfo newest) + 1 /\
        currentBlockData (reader s2) = currentBlockData (reader s1) /\
        blockHistory (reader s2) = blockHistory (reader s1)).
Proof.
  split.
  - intros s h p cur fetched w Eh Ec Eg Em.
    exists (mkSys (set_currentBlockData (Some fetched) (reader s)) w
              (trace s ++ [CallGetBlock (blockNumber (blockInfo cur))])).
    split; [|by simpl; rewrite Eh, last_snoc].
    rewrite (resolveFork_loop_turn s p cur); [|by rewrite Eh, last_snoc|done].
    unfold await_getBlock. rewrite Eg. simpl.
    apply String.eqb_eq in Em. rewrite Em. reflexivity.
  - intros s s1 Hc Hloop Hne.
    rewrite resolveFork_with_eq, Hloop.
    destruct (currentBlockData (reader s)); [|done].
    destruct (blockHistory (reader s1)) as [|newest l _] eqn:Eh using rev_ind;
      [done|].
    rewrite last_snoc. exists newest. eexists. split; [done|].
    destruct (l ++ [newest]) eqn:El; [by destruct l|]. split; [done|].
    simpl. by rewrite Eh.
Qed.

End Fork.

(** On the one-block fork the block fetched again as block 5 names block 4,
    the newest history entry, as its predecessor. *)
Lemma resolveFork_match_stops_witness :
  (exists s1,
      resolveFork_loop shallowFork = (Ok tt, s1) /\
      currentBlockData (reader s1) = Some (simBlock (world shallowFork) 5) /\
      blockHistory (reader s1) =
        [simBlock (mainChain 10) 3] ++ [simBlock (mainChain 10) 4] /\
      last (blockHistory (reader s1)) = Some (simBlock (mainChain 10) 4)) /\
  (exists newest s2,
      last (blockHistory (reader (snd (resolveFork_loop shallowFork)))) =
        Some newest /\
      resolveFork shallowFork = (Ok tt, s2) /\
      currentBlockNumber (reader s2) = blockNumber (blockInfo newest) + 1 /\
      currentBlockData (reader s2) =
        currentBlockData (reader (snd (resolveFork_loop shallowFork))) /\
      blockHistory (reader s2) =
        blockHistory (reader (snd (resolveFork_loop shallowFork)))).
Proof.
  split.
  - apply (proj1 (resolveFork_match_stops historyExhausted) shallowFork
             [simBlock (mainChain 10) 3] (simBlock (mainChain 10) 4)
             (simBlock (mainChain 10) 5) (simBlock (world shallowFork) 5)
             (world shallowFork));
      vm_compute; reflexivity.
  - apply (proj2 (resolveFork_match_stops historyExhausted) shallowFork
             (snd (resolveFork_loop shallowFork))).
    + vm_compute. congruence.
    + vm_compute. reflexivity.
    + vm_compute. congruence.
Defined.

(** ** History exhausted *)

Section Exhausted.
Context {W : Type} `{ChainAdapter W}.

Lemma resolveFork_on_empty (s s1 : Sys W) :
  currentBlockData (reader s) <> None ->
  resolveFork_loop s = (Ok tt, s1) ->
  blockHistory (reader s1) = [] ->
  resolveFork s =
    (Throw (Error exhausted_message),
     mkSys (reader s1) (world s1) (trace s1 ++ [CallHistoryExhausted])).
Proof.
  intros Hc Hloop Hempty.
  unfold resolveFork. rewrite resolveFork_with_eq, Hloop, Hempty.
  by destruct (currentBlockData (reader s)).
Qed.

Lemma resolveFork_no_TypeError (s : Sys W) :
  fst (resolveFork s) <> Throw TypeError.
Proof.
  unfold resolveFork. rewrite resolveFork_with_eq.
  destruct (currentBlockData (reader s)) eqn:Ec; [|done].
  pose proof (resolveFork_loop_outcome s) as [_ Hthrow]; [by rewrite Ec|].
  destruct (resolveFork_loop s) as [[[]|e] s1]; simpl in *.
  - destruct (blockHistory (reader s1)) as [|b' l] eqn:Eh; [done|].
    destruct (last (b' :: l)) eqn:El; [done|].
    by apply last_None in El.
  - by destruct (Hthrow e eq_refl) as [msg ->].
Qed.

Lemma processBehind_no_TypeError (s : Sys W) :
  fst (processBehind historyExhausted s) <> Throw TypeError.
Proof.
  rewrite processBehind_eq.
  destruct (_ <? _); [|done]. cbv zeta.
  destruct (getBlock _ _) as [[e|b] w]; [done|].
  destruct (continues _ _); [done|].
  pose proof (resolveFork_no_TypeError
                (mkSys (reader s) w
                   (trace s ++ [CallGetBlock (currentBlockNumber (reader s) + 1)])))
    as Hres.
  unfold resolveFork in Hres.
  destruct (resolveFork_with historyExhausted _) as [[[]|e] s2];
    [|simpl in *; congruence].
  by destruct (getHeadBlockNumber (world s2)) as [[e|h] w'].
Qed.

Lemma nextBlock_no_TypeError (s : Sys W) :
  fst (nextBlock s) <> Throw TypeError.
Proof.
  unfold nextBlock. rewrite nextBlock_with_eq.
  assert (forall s1 : Sys W,
    fst (match processBehind historyExhausted (snd (wrapToEnd s1)) with
         | (Throw e, s2) => (Throw e, s2)
         | (Ok flags, s2) => finish flags s2
         end) <> Throw TypeError) as Htail.
  { intros s1.
    pose proof (processBehind_no_TypeError (snd (wrapToEnd s1))) as Hp.
    destruct (processBehind historyExhausted _) as [[flags|e] s2];
      [|simpl in *; congruence].
    rewrite finish_eq. simpl.
    by destruct (currentBlockData (reader s2)). }
  rewrite refreshHead_eq. destruct (_ || _); [|apply Htail].
  destruct (getHeadBlockNumber (world s)) as [[e|h] w]; [done|apply Htail].
Qed.

End Exhausted.

(** C7: when the loop of [resolveFork] has popped the whole history without a
    match, the handler is run once and, not overridden, throws, so that
    [resolveFork] ends there; a reader with [maxHistoryLength = 2] reaches
    this on a fork four blocks deep. *)
Theorem resolveFork_exhausted :
  (forall (W : Type) (A : ChainAdapter W) (s s1 : Sys W),
      currentBlockData (reader s) <> None ->
      resolveFork_loop s = (Ok tt, s1) ->
      blockHistory (reader s1) = [] ->
      resolveFork s =
        (Throw (Error exhausted_message),
         mkSys (reader s1) (world s1) (trace s1 ++ [CallHistoryExhausted])) /\
      exhausted_count (trace (after resolveFork s)) =
        S (exhausted_count (trace s))) /\
  (maxHistoryLength (reader deepFork) = 2 /\
   exhausted_count (trace deepFork) = 0%nat /\
   fst (nextBlock deepFork) =
     Throw (Error exhausted_message) /\
   blockHistory (reader (after nextBlock deepFork)) = [] /\
   exhausted_count (trace (after nextBlock deepFork)) = 1%nat).
Proof.
  split; [|by vm_compute].
  intros W A s s1 Hc Hloop Hempty.
  pose proof (resolveFork_on_empty s s1 Hc Hloop Hempty) as E.
  split; [exact E|].
  unfold after. rewrite E. simpl. rewrite exhausted_count_snoc. simpl.
  pose proof (resolveFork_loop_frame s) as (_ & _ & Hcount).
  rewrite Hloop in Hcount. simpl in Hcount. lia.
Qed.

(** The reader that holds block 5 with blocks 3 and 4 behind it, fetching
    again on the deep fork. *)
Lemma resolveFork_exhausted_witness :
  resolveFork deepFork =
    (Throw (Error exhausted_message),
     mkSys (reader (snd (resolveFork_loop deepFork)))
           (world (snd (resolveFork_loop deepFork)))
           (trace (snd (resolveFork_loop deepFork)) ++ [CallHistoryExhausted])) /\
  exhausted_count (trace (after resolveFork deepFork)) =
    S (exhausted_count (trace deepFork)).
Proof.
  apply (proj1 resolveFork_exhausted SimChain simAdapter deepFork
           (snd (resolveFork_loop deepFork))).
  - vm_compute. congruence.
  - vm_compute. reflexivity.
  - vm_compute. reflexivity.
Defined.

(** C10: with the handler as shipped, [resolveFork] never reads the newest
    entry of an empty history: when the loop leaves the history empty the
    handler throws first and [currentBlockNumber] is not assigned, and no
    call of [resolveFork] or [nextBlock] ends in the [TypeError] of that
    read.  With an override that returns, the read is reached. *)
Theorem resolveFork_never_reads_empty_history :
  (forall (W : Type) (A : ChainAdapter W) (s : Sys W),
      fst (resolveFork s) <> Throw TypeError /\
      fst (nextBlock s) <> Throw TypeError /\
      (forall s1,
          currentBlockData (reader s) <> None ->
          resolveFork_loop s = (Ok tt, s1) ->
          blockHistory (reader s1) = [] ->
          fst (resolveFork s) = Throw (Error exhausted_message) /\
          currentBlockNumber (reader (after resolveFork s)) =
            currentBlockNumber (reader s))) /\
  fst (nextBlock_with (ret tt) deepFork) = Throw TypeError.
Proof.
  split; [|by vm_compute].
  intros W A s.
  split; [apply resolveFork_no_TypeError|].
  split; [apply nextBlock_no_TypeError|].
  intros s1 Hc Hloop Hempty.
  unfold after. rewrite (resolveFork_on_empty s s1 Hc Hloop Hempty). simpl.
  split; [done|].
  pose proof (resolveFork_loop_frame s) as ((_ & Hn & _) & _).
  by rewrite Hloop in Hn.
Qed.

(** The reader on the deep fork: the handler as shipped throws where the
    read would be. *)
Lemma resolveFork_never_reads_empty_history_witness :
  fst (resolveFork deepFork) = Throw (Error exhausted_message) /\
  currentBlockNumber (reader (after resolveFork deepFork)) =
    currentBlockNumber (reader deepFork).
Proof.
  apply (proj2 (proj2 (proj1 resolveFork_never_reads_empty_history
                         SimChain simAdapter deepFork))
           (snd (resolveFork_loop deepFork))).
  - vm_compute. congruence.
  - vm_compute. reflexivity.
  - vm_compute. reflexivity.
Defined.

(** ** Commits *)

Section Commit.
Context {W : Type} `{ChainAdapter W}.

(** Neither the refresh of the head nor the wrap to the end of the chain
    touches the blocks the reader holds. *)
Lemma prelude_keeps_blocks (s s1 : Sys W) (o : Outcome unit) :
  refreshHead s = (o, s1) ->
  currentBlockData (reader (snd (wrapToEnd s1))) = currentBlockData (reader s) /\
  blockHistory (reader (snd (wrapToEnd s1))) = blockHistory (reader s) /\
  maxHistoryLength (reader (snd (wrapToEnd s1))) = maxHistoryLength (reader s) /\
  currentBlockData (reader s1) = currentBlockData (reader s) /\
  blockHistory (reader s1) = blockHistory (reader s) /\
  maxHistoryLength (reader s1) = maxHistoryLength (reader s).
Proof.
  rewrite refreshHead_eq, wrapToEnd_eq. intros E.
  assert (currentBlockData (reader s1) = currentBlockData (reader s) /\
          blockHistory (reader s1) = blockHistory (reader s) /\
          maxHistoryLength (reader s1) = maxHistoryLength (reader s))
    as (Ec & Eh & Em).
  { destruct (_ || _); [|by injection E as _ <-].
    destruct (getHeadBlockNumber (world s)) as [[e|h] w];
      by injection E as _ <-. }
  simpl. by destruct (_ && _).
Qed.

Lemma pushedAndTrimmed_ext (r r' : Reader) :
  currentBlockData r' = currentBlockData r ->
  blockHistory r' = blockHistory r ->
  maxHistoryLength r' = maxHistoryLength r ->
  pushedAndTrimmed r' = pushedAndTrimmed r.
Proof. unfold pushedAndTrimmed. by intros -> -> ->. Qed.

Lemma continues_ext (r r' : Reader) (b : Block) :
  currentBlockData r' = currentBlockData r ->
  blockHistory r' = blockHistory r ->
  continues r' b = continues r b.
Proof. unfold continues. by intros -> ->. Qed.

(** [pushedAndTrimmed] drops from the front only, and down to the bound. *)
Lemma pushedAndTrimmed_suffix (r : Reader) :
  exists dropped,
    blockHistory r ++ option_list (currentBlockData r) =
    dropped ++ pushedAndTrimmed r.
Proof.
  unfold pushedAndTrimmed, splice_front.
  set (pushed := match currentBlockData r with
                 | Some cur => blockHistory r ++ [cur]
                 | None => blockHistory r
                 end).
  assert (blockHistory r ++ option_list (currentBlockData r) = pushed) as ->.
  { unfold pushed. destruct (currentBlockData r); simpl; [done|].
    by rewrite app_nil_r. }
  exists (take (Z.to_nat (len pushed - maxHistoryLength r)) pushed).
  by rewrite take_drop.
Qed.

Lemma pushedAndTrimmed_bound (r : Reader) :
  0 <= maxHistoryLength r ->
  len (pushedAndTrimmed r) <= maxHistoryLength r.
Proof.
  unfold pushedAndTrimmed, splice_front, len. intros Hmax.
  rewrite length_drop. lia.
Qed.

Variable handler : M W unit.

(** A call that returns [isRollback = false] and [isNewBlock = true] went
    through the commit. *)
Lemma nextBlock_commit (s s' : Sys W) (b : Block) :
  nextBlock_with handler s = (Ok (b, false, true), s') ->
  continues (reader s) b = true /\
  currentBlockData (reader s') = Some b /\
  blockHistory (reader s') = pushedAndTrimmed (reader s) /\
  maxHistoryLength (reader s') = maxHistoryLength (reader s).
Proof.
  rewrite nextBlock_with_eq.
  destruct (refreshHead s) as [[[]|e] s1] eqn:Er; [|done].
  destruct (prelude_keeps_blocks s s1 _ Er) as (Ec & Eh & Em & _).
  set (s2 := snd (wrapToEnd s1)) in *.
  rewrite processBehind_eq.
  destruct (_ <? _).
  2:{ rewrite finish_eq. simpl.
      destruct (currentBlockData (reader s2)); simpl; congruence. }
  cbv zeta. destruct (getBlock _ _) as [[e|b'] w]; [done|].
  destruct (continues (reader s2) b') eqn:Econt.
  - rewrite commitBlock_eq, finish_eq. simpl. intros [= <- <-]. simpl.
    rewrite <- (continues_ext (reader s) (reader s2) b') by done.
    by rewrite <- (pushedAndTrimmed_ext (reader s) (reader s2)).
  - destruct (resolveFork_with handler _) as [[[]|e] s3]; [|done].
    destruct (getHeadBlockNumber (world s3)) as [[e|h] w']; [done|].
    rewrite finish_eq. simpl.
    destruct (currentBlockData (reader s3)); simpl; congruence.
Qed.

End Commit.

(** C2, as the code has it: when [nextBlock()] returns [isNewBlock = true]
    and [isRollback = false], and before the call the reader held a current
    block and a history that was not empty, the returned block's
    [previousBlockHash] is that current block's [blockHash]. *)
Theorem nextBlock_commit_links {W} `{ChainAdapter W}
    (s s' : Sys W) (b cur : Block) :
  nextBlock s = (Ok (b, false, true), s') ->
  currentBlockData (reader s) = Some cur ->
  blockHistory (reader s) <> [] ->
  previousBlockHash (blockInfo b) = blockHash (blockInfo cur).
Proof.
  intros Hret Hcur Hhist.
  destruct (nextBlock_commit historyExhausted s s' b Hret) as (Hcont & _).
  unfold continues in Hcont. rewrite Hcur in Hcont.
  apply orb_true_iff in Hcont as [Heq|Hlen].
  - symmetry. by apply String.eqb_eq.
  - unfold len in Hlen. destruct (blockHistory (reader s)); [done|].
    simpl in Hlen. lia.
Qed.

(** The default reader after two blocks: the third links to the second. *)
Lemma nextBlock_commit_links_witness :
  previousBlockHash (blockInfo (simBlock (mainChain 10) 3)) =
  blockHash (blockInfo (simBlock (mainChain 10) 2)).
Proof.
  apply (nextBlock_commit_links (readTo 2) (readTo 3)
           (simBlock (mainChain 10) 3) (simBlock (mainChain 10) 2)).
  - vm_compute. reflexivity.
  - vm_compute. reflexivity.
  - vm_compute. congruence.
Defined.

(** C2 as stated fails: the reader holds block 1 of the main branch and its
    history is still empty when the chain is replaced from block 1 on; the
    next call commits the new branch's block 2, whose predecessor is not the
    block the reader held. *)
Lemma nextBlock_commit_unlinked :
  currentBlockData (reader (reorg (mkSimChain 10 1 "B") (readTo 1))) =
    Some (simBlock (mainChain 10) 1) /\
  fst (nextBlock (reorg (mkSimChain 10 1 "B") (readTo 1))) =
    Ok (simBlock (mkSimChain 10 1 "B") 2, false, true) /\
  previousBlockHash (blockInfo (simBlock (mkSimChain 10 1 "B") 2)) <>
    blockHash (blockInfo (simBlock (mainChain 10) 1)).
Proof.
  vm_compute. repeat split; congruence.
Qed.

(** ** The bound on the history *)

Section Bound.
Context {W : Type} `{ChainAdapter W}.

(** What [resolveFork], with the handler as shipped, does to the reader
    besides [currentBlockData]: it keeps a prefix of the history, and either
    leaves [currentBlockNumber] or sets it to one more than the number of an
    entry of the history. *)
Lemma resolveFork_frame (s : Sys W) :
  startAtBlock (reader (snd (resolveFork s))) = startAtBlock (reader s) /\
  maxHistoryLength (reader (snd (resolveFork s))) =
    maxHistoryLength (reader s) /\
  blockHistory (reader (snd (resolveFork s)))
    `prefix_of` blockHistory (reader s) /\
  (currentBlockNumber (reader (snd (resolveFork s))) =
     currentBlockNumber (reader s) \/
   exists newest,
     newest ∈ blockHistory (reader s) /\
     currentBlockNumber (reader (snd (resolveFork s))) =
       blockNumber (blockInfo newest) + 1) /\
  currentBlockData (reader (snd (resolveFork s))) =
    currentBlockData (reader (snd (resolveFork_loop s))) \/
  snd (resolveFork s) = s.
Proof.
  unfold resolveFork. rewrite resolveFork_with_eq.
  destruct (currentBlockData (reader s)); [|by right].
  left.
  pose proof (resolveFork_loop_frame s) as ((_ & Hn & _ & Hs & _ & Hm) & Hp & _).
  destruct (resolveFork_loop s) as [[[]|e] s1]; simpl in *;
    [|repeat split; auto].
  destruct (blockHistory (reader s1)) as [|b1 l] eqn:Eh; simpl.
  { rewrite Eh. repeat split; auto; apply prefix_nil. }
  destruct (last (b1 :: l)) as [newest|] eqn:El; simpl;
    [|by apply last_None in El].
  rewrite Eh. repeat split; auto. right. exists newest. split; [|done].
  apply last_Some_elem_of in El.
  destruct Hp as [k ->]. apply elem_of_app. by left.
Qed.

Lemma nextBlock_history (s : Sys W) :
  maxHistoryLength (reader (after nextBlock s)) = maxHistoryLength (reader s) /\
  (blockHistory (reader (after nextBlock s))
     `prefix_of` blockHistory (reader s) \/
   blockHistory (reader (after nextBlock s)) = pushedAndTrimmed (reader s)).
Proof.
  unfold after, nextBlock. rewrite nextBlock_with_eq.
  destruct (refreshHead s) as [[[]|e] s1] eqn:Er.
  2:{ destruct (prelude_keeps_blocks s s1 _ Er) as (_ & _ & _ & _ & Eh & Em).
      simpl. rewrite Eh, Em. auto. }
  destruct (prelude_keeps_blocks s s1 _ Er) as (Ec & Eh & Em & _).
  set (s2 := snd (wrapToEnd s1)) in *.
  rewrite <- Eh, <- Em,
    <- (pushedAndTrimmed_ext (reader s) (reader s2)) by done.
  clearbody s2. clear Er Ec Eh Em s s1.
  rewrite processBehind_eq.
  destruct (_ <? _); [|by rewrite finish_eq; simpl; auto].
  cbv zeta. destruct (getBlock _ _) as [[e|b] w]; [by simpl; auto|].
  destruct (continues (reader s2) b).
  { rewrite commitBlock_eq, finish_eq. simpl. auto. }
  match goal with |- context [resolveFork_with historyExhausted ?s0] =>
    pose proof (resolveFork_frame s0) as Hf; unfold resolveFork in Hf;
    destruct (resolveFork_with historyExhausted s0) as [[[]|e] s3]
  end; simpl in Hf.
  - assert (maxHistoryLength (reader s3) = maxHistoryLength (reader s2) /\
            blockHistory (reader s3) `prefix_of` blockHistory (reader s2))
      as [Em Ep].
    { destruct Hf as [(_ & Em & Ep & _)| ->]; [done|]. simpl. done. }
    destruct (getHeadBlockNumber (world s3)) as [[e|h] w']; simpl; [by auto|].
    rewrite finish_eq. simpl. auto.
  - simpl. destruct Hf as [(_ & Em & Ep & _)| ->]; [by auto|]. simpl. auto.
Qed.

Lemma nextBlock_keeps_bound (s : Sys W) :
  0 <= maxHistoryLength (reader s) ->
  len (blockHistory (reader s)) <= maxHistoryLength (reader s) ->
  maxHistoryLength (reader (after nextBlock s)) = maxHistoryLength (reader s) /\
  len (blockHistory (reader (after nextBlock s))) <=
    maxHistoryLength (reader s).
Proof.
  intros Hmax Hlen.
  destruct (nextBlock_history s) as [Em [Hp| ->]].
  - split; [done|]. apply prefix_length in Hp. unfold len in *. lia.
  - split; [done|]. by apply pushedAndTrimmed_bound.
Qed.

(** C8: a reader constructed with a [maxHistoryLength] that is not negative
    never holds more than that many blocks in its history, whatever the
    calls of [nextBlock()] did; and a call that commits a block puts the block
    that was current on the history, drops entries from the front of it
    only (the oldest), and keeps the committed block as [currentBlockData],
    outside the history. *)
Theorem history_bounded (startAt : Z) (irreversible : bool) (maxLen : Z)
    (w : W) (n : nat) :
  0 <= maxLen ->
  len (blockHistory
         (reader (advance n (boot (constructor startAt irreversible maxLen) w))))
    <= maxLen /\
  forall (b : Block) (s' : Sys W),
    nextBlock (advance n (boot (constructor startAt irreversible maxLen) w)) =
      (Ok (b, false, true), s') ->
    currentBlockData (reader s') = Some b /\
    len (blockHistory (reader s')) <= maxLen /\
    exists dropped,
      blockHistory
        (reader (advance n (boot (constructor startAt irreversible maxLen) w)))
      ++ option_list
           (currentBlockData
              (reader (advance n
                         (boot (constructor startAt irreversible maxLen) w)))) =
      dropped ++ blockHistory (reader s').
Proof.
  intros Hmax.
  set (s0 := boot (constructor startAt irreversible maxLen) w).
  assert (maxHistoryLength (reader (advance n s0)) = maxLen /\
          len (blockHistory (reader (advance n s0))) <= maxLen) as [Em Hlen].
  { induction n as [|n [IHm IHl]]; [by simpl|].
    rewrite advance_snoc.
    destruct (nextBlock_keeps_bound (advance n s0)) as [Em Hl];
      rewrite ?IHm; try done.
    rewrite IHm in Em, Hl. by rewrite Em. }
  split; [done|]. intros b s' Hret.
  destruct (nextBlock_commit historyExhausted _ s' b Hret)
    as (_ & Hc & Hh & Hm).
  split; [done|]. rewrite Hh. split.
  - rewrite <- Em. apply pushedAndTrimmed_bound. by rewrite Em.
  - apply pushedAndTrimmed_suffix.
Qed.

End Bound.

(** A reader with room for two blocks, after five blocks and on the sixth. *)
Lemma history_bounded_witness :
  len (blockHistory (reader shortHistory)) <= 2 /\
  currentBlockData (reader (after nextBlock shortHistory)) =
    Some (simBlock (mainChain 10) 6) /\
  len (blockHistory (reader (after nextBlock shortHistory))) <= 2 /\
  exists dropped,
    blockHistory (reader shortHistory)
    ++ option_list (currentBlockData (reader shortHistory)) =
    dropped ++ blockHistory (reader (after nextBlock shortHistory)).
Proof.
  destruct (history_bounded 1 false 2 (mainChain 10) 5) as [Hlen Hcommit];
    [lia|].
  split; [exact Hlen|].
  apply (Hcommit (simBlock (mainChain 10) 6) (after nextBlock shortHistory)).
  vm_compute. reflexivity.
Defined.

(** ** Tailing from a negative start *)

Section Tailing.
Context {W : Type} `{ChainAdapter W}.
Hypothesis Hasked : numbers_as_asked W.

Lemma pushedAndTrimmed_numbered (k : Z) (r : Reader) :
  numbered_from k r ->
  Forall (fun b => k <= blockNumber (blockInfo b)) (pushedAndTrimmed r).
Proof.
  intros [Hh Hc].
  destruct (pushedAndTrimmed_suffix r) as [dropped E].
  assert (Forall (fun b => k <= blockNumber (blockInfo b))
            (blockHistory r ++ option_list (currentBlockData r))) as Hall.
  { apply Forall_app. split; [done|].
    destruct (currentBlockData r) as [c|]; simpl; [|done].
    apply Forall_singleton. by apply Hc. }
  rewrite E in Hall. by apply Forall_app in Hall as [_ Hall].
Qed.

Lemma resolveFork_loop_numbered (k : Z) (s : Sys W) :
  numbered_from k (reader s) ->
  numbered_from k (reader (snd (resolveFork_loop s))).
Proof.
  apply (resolveFork_loop_cases (fun s res =>
    numbered_from k (reader s) -> numbered_from k (reader (snd res)))).
  - by intros s0 _.
  - by intros s0 h p _ _.
  - by intros s0 h p cur e w _ _ _.
  - intros s0 h p cur fetched w _ Ec Eg _ [Hh Hc]. split; [done|].
    simpl. intros c [= <-]. rewrite (Hasked _ _ _ _ Eg). by apply Hc.
  - intros s0 h p cur fetched w res Eh _ _ _ IH [Hh Hc]. apply IH.
    rewrite Eh in Hh. apply Forall_app in Hh as [Hh Hp].
    split; simpl.
    + unfold pop. by rewrite Eh, removelast_last.
    + intros c [= <-]. by inversion Hp.
Qed.

Lemma resolveFork_past_first (k : Z) (s : Sys W) :
  past_first k (reader s) ->
  past_first k (reader (snd (resolveFork s))).
Proof.
  intros (Hs & Hn & Hnum).
  pose proof (resolveFork_loop_numbered k s Hnum) as [_ Hlc].
  destruct (resolveFork_frame s) as [(Es & _ & Ep & En & Ec)| ->]; [|done].
  destruct Hnum as [Hh Hc].
  assert (Forall (fun b => k <= blockNumber (blockInfo b))
            (blockHistory (reader (snd (resolveFork s))))) as Hh'.
  { destruct Ep as [rest Ep]. rewrite Ep in Hh.
    by apply Forall_app in Hh as [Hh _]. }
  split; [congruence|]. split.
  - destruct En as [-> | (newest & Hin & ->)]; [done|].
    rewrite Forall_forall in Hh. specialize (Hh newest Hin). lia.
  - split; [done|]. rewrite Ec. exact Hlc.
Qed.

Lemma processBehind_past_first (k : Z) (s : Sys W) :
  past_first k (reader s) ->
  past_first k (reader (snd (processBehind historyExhausted s))).
Proof.
  intros Hp. rewrite processBehind_eq.
  destruct (_ <? _); [|done].
  cbv zeta. destruct (getBlock _ _) as [[e|b] w] eqn:Eg; [done|].
  destruct (continues (reader s) b).
  { rewrite commitBlock_eq. simpl.
    destruct Hp as (Hs & Hn & Hnum).
    pose proof (Hasked _ _ _ _ Eg) as Eb.
    split; [done|]. simpl. split; [lia|]. split; simpl.
    - by apply pushedAndTrimmed_numbered.
    - intros c [= <-]. lia. }
  match goal with |- context [resolveFork_with historyExhausted ?s0] =>
    pose proof (resolveFork_past_first k s0 Hp) as Hf; unfold resolveFork in Hf;
    destruct (resolveFork_with historyExhausted s0) as [[[]|e] s3]
  end; simpl in Hf; [|done].
  by destruct (getHeadBlockNumber (world s3)) as [[e|h] w'].
Qed.

(** Once past its first block the reader stays past it, and every call that
    returns leaves [isFirstBlock] false. *)
Lemma nextBlock_past_first (k : Z) (s : Sys W) :
  0 <= k ->
  past_first k (reader s) ->
  past_first k (reader (after nextBlock s)) /\
  (forall res, fst (nextBlock s) = Ok res ->
               isFirstBlock (reader (after nextBlock s)) = false).
Proof.
  intros Hk Hp. unfold after, nextBlock. rewrite nextBlock_with_eq.
  assert (forall s1 : Sys W,
    past_first k (reader s1) ->
    let res := match processBehind historyExhausted (snd (wrapToEnd s1)) with
               | (Throw e, s2) => (Throw e, s2)
               | (Ok flags, s2) => finish flags s2
               end in
    past_first k (reader (snd res)) /\
    (forall r, fst res = Ok r -> isFirstBlock (reader (snd res)) = false))
    as Htail.
  { intros s1 Hp1. rewrite wrapToEnd_eq. simpl.
    assert ((currentBlockNumber (reader s1) <? 0) = false) as ->
      by (destruct Hp1 as (_ & Hn & _); lia).
    simpl. pose proof (processBehind_past_first k s1 Hp1) as Hp2.
    destruct (processBehind historyExhausted s1) as [[flags|e] s2];
      simpl in Hp2; [|done].
    rewrite finish_eq. simpl. split; [done|]. intros _ _.
    destruct Hp2 as (Hs & Hn & _). lia. }
  rewrite refreshHead_eq. destruct (_ || _); [|by apply Htail].
  destruct (getHeadBlockNumber (world s)) as [[e|h] w]; [done|].
  by apply Htail.
Qed.

(** On its first block and behind the head, the reader stays there if the
    call throws and is past it if the call returns. *)
Lemma nextBlock_on_first (k : Z) (s : Sys W) :
  0 <= k ->
  on_first k (reader s) ->
  (on_first k (reader (after nextBlock s)) \/
   past_first k (reader (after nextBlock s))) /\
  (forall res, fst (nextBlock s) = Ok res ->
               isFirstBlock (reader (after nextBlock s)) = false).
Proof.
  intros Hk (Hs & Hn & Hh & Hhist & Hnum).
  unfold after, nextBlock. rewrite nextBlock_with_eq, refreshHead_eq.
  assert (((currentBlockNumber (reader s) =? headBlockNumber (reader s))
           || (headBlockNumber (reader s) =? 0)) = false) as ->.
  { apply orb_false_iff. lia. }
  rewrite wrapToEnd_eq. simpl.
  assert ((currentBlockNumber (reader s) <? 0) = false) as -> by lia.
  simpl. rewrite processBehind_eq.
  assert ((currentBlockNumber (reader s) <? headBlockNumber (reader s)) = true)
    as -> by lia.
  cbv zeta. destruct (getBlock _ _) as [[e|b] w] eqn:Eg.
  { simpl. split; [|done]. left. done. }
  assert (continues (reader s) b = true) as ->.
  { unfold continues. rewrite Hhist. simpl. apply orb_true_r. }
  rewrite commitBlock_eq, finish_eq. simpl.
  pose proof (Hasked _ _ _ _ Eg) as Eb.
  destruct (currentBlockData (reader s)) eqn:Ec; simpl.
  all: split; [|intros _ _; lia].
  all: right; split; [done|]; simpl; split; [lia|]; split; simpl.
  all: try (intros c [= <-]; lia).
  all: by apply pushedAndTrimmed_numbered.
Qed.

(** C1, as the code has it: a reader constructed with [startAtBlock = -5],
    first called when the adapter reports head 100, asks for block 95
    (100 + (-5)) and returns it; [isFirstBlock] is true after that call and
    false after every later call of [nextBlock()] that returns. *)
Theorem tailing_start (irreversible : bool) (maxLen : Z) (w w1 w2 : W)
    (b : Block) (n : nat) :
  getHeadBlockNumber w = (inr 100, w1) ->
  getBlock 95 w1 = (inr b, w2) ->
  nextBlock (boot (constructor (-5) irreversible maxLen) w) =
    (Ok (b, false, true),
     after nextBlock (boot (constructor (-5) irreversible maxLen) w)) /\
  trace (after nextBlock (boot (constructor (-5) irreversible maxLen) w)) =
    [CallGetHeadBlockNumber; CallGetBlock 95] /\
  blockNumber (blockInfo b) = 95 /\
  isFirstBlock
    (reader (after nextBlock (boot (constructor (-5) irreversible maxLen) w))) =
    true /\
  forall res,
    fst (nextBlock
           (advance n
              (after nextBlock (boot (constructor (-5) irreversible maxLen) w))))
      = Ok res ->
    isFirstBlock
      (reader
         (advance (S n)
            (after nextBlock (boot (constructor (-5) irreversible maxLen) w))))
      = false.
Proof.
  intros Ehead Eblock.
  pose proof (Hasked _ _ _ _ Eblock) as Eb.
  set (s0 := boot (constructor (-5) irreversible maxLen) w).
  assert (nextBlock s0 =
    (Ok (b, false, true),
     mkSys (mkReader 100 95 true (Some b)
              (splice_front (0 - maxLen) []) 95 irreversible maxLen)
           w2 [CallGetHeadBlockNumber; CallGetBlock 95])) as E.
  { unfold nextBlock. rewrite nextBlock_with_eq, refreshHead_eq. simpl.
    rewrite Ehead, wrapToEnd_eq. simpl.
    rewrite processBehind_eq. simpl.
    change (100 + (-5 - 1) + 1) with 95. change (100 + (-5 - 1)) with 94.
    rewrite Eblock. unfold continues. simpl. rewrite orb_true_r.
    rewrite finish_eq. simpl. rewrite Eb. reflexivity. }
  unfold after at 1 2 3 4 5. rewrite E.
  cbn [snd fst trace reader isFirstBlock].
  repeat split; [done|].
  set (s1 := mkSys _ w2 _).
  assert (on_first 95 (reader s1)) as Hfirst.
  { repeat split; simpl; try done.
    - unfold splice_front. by rewrite drop_nil.
    - unfold splice_front. rewrite drop_nil. constructor.
    - intros c [= <-]. lia. }
  assert (on_first 95 (reader (advance n s1)) \/
          past_first 95 (reader (advance n s1))) as Hinv.
  { clear E. induction n as [|n IH]; [by left|].
    rewrite advance_snoc. destruct IH as [IH|IH].
    - apply (nextBlock_on_first 95); [lia|done].
    - right. apply (nextBlock_past_first 95); [lia|done]. }
  rewrite advance_snoc. destruct Hinv as [Hinv|Hinv].
  - apply (nextBlock_on_first 95); [lia|done].
  - apply (nextBlock_past_first 95); [lia|done].
Qed.

End Tailing.

Lemma numbers_as_asked_sim : numbers_as_asked SimChain.
Proof. by intros n w w' b [= <- _]. Qed.

(** The default tailing reader, called four times. *)
Lemma tailing_start_witness :
  nextBlock tailing =
    (Ok (simBlock (mainChain 100) 95, false, true), after nextBlock tailing) /\
  trace (after nextBlock tailing) = [CallGetHeadBlockNumber; CallGetBlock 95] /\
  blockNumber (blockInfo (simBlock (mainChain 100) 95)) = 95 /\
  isFirstBlock (reader (after nextBlock tailing)) = true /\
  isFirstBlock (reader (advance 3 (after nextBlock tailing))) = false.
Proof.
  destruct (tailing_start numbers_as_asked_sim default_onlyIrreversible
              default_maxHistoryLength (mainChain 100) (mainChain 100)
              (mainChain 100) (simBlock (mainChain 100) 95) 2
              eq_refl eq_refl) as (E & Et & En & Ef & Hlater).
  split; [exact E|]. split; [exact Et|]. split; [exact En|].
  split; [exact Ef|].
  apply (Hlater (simBlock (mainChain 100) 98, false, true)).
  vm_compute. reflexivity.
Defined.

(** C1 as stated fails: with head 100 the first block returned is block 95,
    not block 96. *)
Lemma tailing_start_not_96 :
  fst (getHeadBlockNumber (world tailing)) = inr 100 /\
  fst (nextBlock tailing) = Ok (simBlock (mainChain 100) 95, false, true) /\
  blockNumber (blockInfo (simBlock (mainChain 100) 95)) <> 96.
Proof.
  vm_compute. repeat split; congruence.
Qed.

(** ** Seeking into the history *)

(** C3 fails on the code: the default reader has read blocks 1 to 6, so that
    it holds block 6 with blocks 1 to 5 in its history, and block 3 is sought.
    The call returns, with block 1 as [currentBlockData] while
    [currentBlockNumber] is 2. *)
Theorem seekToBlock_breaks_block_number :
  startAtBlock (reader (readTo 6)) <= 3 /\
  currentBlockData (reader (readTo 6)) = Some (simBlock (mainChain 10) 6) /\
  currentBlockNumber (reader (readTo 6)) = 6 /\
  blockHistory (reader (readTo 6)) =
    simBlock (mainChain 10) <$> [1; 2; 3; 4; 5] /\
  fst (seekToBlock 3 (readTo 6)) = Ok tt /\
  currentBlockData (reader (after (seekToBlock 3) (readTo 6))) =
    Some (simBlock (mainChain 10) 1) /\
  currentBlockNumber (reader (after (seekToBlock 3) (readTo 6))) = 2 /\
  blockNumber (blockInfo (simBlock (mainChain 10) 1)) <> 2.
Proof.
  vm_compute. repeat split; congruence.
Qed.

(** C4 fails on the code, for the same reader.  Block 5 is the newest entry
    of the history, yet [seekToBlock(5)] calls [getBlock(4)] and holds that
    block.  Block 3 is in the history, yet [seekToBlock(3)] holds block 1 and
    has emptied the history, the older entries included.  Block 9 is not in
    the history, yet [seekToBlock(9)] calls nothing and holds block 4. *)
Theorem seekToBlock_misuses_history :
  blockHistory (reader (readTo 6)) =
    simBlock (mainChain 10) <$> [1; 2; 3; 4; 5] /\
  (fst (seekToBlock 5 (readTo 6)) = Ok tt /\
   trace (after (seekToBlock 5) (readTo 6)) =
     trace (readTo 6) ++ [CallGetBlock 4] /\
   currentBlockData (reader (after (seekToBlock 5) (readTo 6))) =
     Some (simBlock (mainChain 10) 4)) /\
  (fst (seekToBlock 3 (readTo 6)) = Ok tt /\
   trace (after (seekToBlock 3) (readTo 6)) = trace (readTo 6) /\
   currentBlockData (reader (after (seekToBlock 3) (readTo 6))) =
     Some (simBlock (mainChain 10) 1) /\
   blockHistory (reader (after (seekToBlock 3) (readTo 6))) = []) /\
  (fst (seekToBlock 9 (readTo 6)) = Ok tt /\
   trace (after (seekToBlock 9) (readTo 6)) = trace (readTo 6) /\
   currentBlockData (reader (after (seekToBlock 9) (readTo 6))) =
     Some (simBlock (mainChain 10) 4) /\
   currentBlockNumber (reader (after (seekToBlock 9) (readTo 6))) = 8).
Proof.
  vm_compute. repeat split; congruence.
Qed.

(** * Further properties of the class *)

(** ** The first call *)

Section FirstCall.
Context {W : Type} `{ChainAdapter W}.

(** X1: the first [nextBlock()] of a new reader asks the adapter for the head
    and then for one block: block [startAtBlock] when that is positive and
    not beyond the head, block [head + startAtBlock] when it is zero or
    negative (so 0 starts on the head block itself).  It returns that block
    with [isRollback = false] and [isNewBlock = true], leaves the history
    empty and, in the second case, makes the block's number the new
    [startAtBlock]. *)
Theorem first_call_reads_start (k : Z) (irreversible : bool) (maxLen : Z)
    (w w1 w2 : W) (h : Z) (b : Block) :
  getHeadBlockNumber w = (inr h, w1) ->
  k <= 0 \/ k <= h ->
  getBlock (if k <=? 0 then h + k else k) w1 = (inr b, w2) ->
  nextBlock (boot (constructor k irreversible maxLen) w) =
    (Ok (b, false, true),
     mkSys (mkReader h (blockNumber (blockInfo b))
              (blockNumber (blockInfo b) =? (if k <=? 0 then h + k else k))
              (Some b) [] (if k <=? 0 then h + k else k) irreversible maxLen)
           w2
           [CallGetHeadBlockNumber;
            CallGetBlock (if k <=? 0 then h + k else k)]).
Proof.
  intros Ehead Hk Eblock.
  unfold nextBlock. rewrite nextBlock_with_eq, refreshHead_eq. simpl.
  rewrite orb_true_r, Ehead, wrapToEnd_eq. simpl.
  destruct (Z.leb_spec k 0) as [Hneg|Hpos].
  - assert ((k - 1 <? 0) = true) as -> by lia. simpl.
    rewrite processBehind_eq. simpl.
    assert ((h + (k - 1) <? h) = true) as -> by lia.
    replace (h + (k - 1) + 1) with (h + k) by lia.
    rewrite Eblock. unfold continues. simpl. rewrite orb_true_r.
    rewrite finish_eq. simpl. unfold pushedAndTrimmed, splice_front. simpl.
    by rewrite drop_nil.
  - assert ((k - 1 <? 0) = false) as -> by lia. simpl.
    rewrite processBehind_eq. simpl.
    assert ((k - 1 <? h) = true) as -> by lia.
    replace (k - 1 + 1) with k by lia.
    rewrite Eblock. unfold continues. simpl. rewrite orb_true_r.
    rewrite finish_eq. simpl. unfold pushedAndTrimmed, splice_front. simpl.
    by rewrite drop_nil.
Qed.

(** X2: a new reader whose positive [startAtBlock] lies beyond the head the
    adapter reports has nothing to read: [nextBlock()] throws
    "currentBlockData must not be null." without calling [getBlock], having
    stored the head and set [isFirstBlock] to false. *)
Theorem first_call_beyond_head (k : Z) (irreversible : bool) (maxLen : Z)
    (w w1 : W) (h : Z) :
  1 <= k ->
  getHeadBlockNumber w = (inr h, w1) ->
  h < k ->
  nextBlock (boot (constructor k irreversible maxLen) w) =
    (Throw (Error "currentBlockData must not be null."),
     mkSys (mkReader h (k - 1) false None [] k irreversible maxLen)
           w1 [CallGetHeadBlockNumber]).
Proof.
  intros Hk Ehead Hh.
  unfold nextBlock. rewrite nextBlock_with_eq, refreshHead_eq. simpl.
  rewrite orb_true_r, Ehead, wrapToEnd_eq. simpl.
  assert ((k - 1 <? 0) = false) as -> by lia. simpl.
  rewrite processBehind_eq. simpl.
  assert ((k - 1 <? h) = false) as -> by lia.
  rewrite finish_eq. simpl.
  assert ((k - 1 =? k) = false) as -> by lia. reflexivity.
Qed.

End FirstCall.

(** A reader told to start on the head block itself, on a chain whose head is
    block 100. *)
Lemma first_call_reads_start_witness :
  nextBlock (boot (constructor 0 false 600) (mainChain 100)) =
    (Ok (simBlock (mainChain 100) 100, false, true),
     mkSys (mkReader 100 100 true (Some (simBlock (mainChain 100) 100)) []
              100 false 600)
           (mainChain 100) [CallGetHeadBlockNumber; CallGetBlock 100]).
Proof.
  apply (first_call_reads_start 0 false 600 (mainChain 100) (mainChain 100)
           (mainChain 100) 100 (simBlock (mainChain 100) 100)).
  - reflexivity.
  - left. lia.
  - reflexivity.
Defined.

(** A reader told to start at block 11 of a chain whose head is block 10. *)
Lemma first_call_beyond_head_witness :
  nextBlock (boot (constructor 11 false 600) (mainChain 10)) =
    (Throw (Error "currentBlockData must not be null."),
     mkSys (mkReader 10 (11 - 1) false None [] 11 false 600)
           (mainChain 10) [CallGetHeadBlockNumber]).
Proof.
  apply (first_call_beyond_head 11 false 600 (mainChain 10) (mainChain 10) 10).
  - lia.
  - reflexivity.
  - lia.
Defined.

(** ** What a call of [nextBlock] tells its caller *)

Section Returns.
Context {W : Type} `{ChainAdapter W}.

Lemma refreshHead_cases (s s1 : Sys W) (o : Outcome unit) :
  refreshHead s = (o, s1) ->
  (o = Ok tt /\ s1 = s) \/
  (exists h w,
      getHeadBlockNumber (world s) = (inr h, w) /\ o = Ok tt /\
      s1 = mkSys (set_headBlockNumber h (reader s)) w
             (trace s ++ [CallGetHeadBlockNumber])) \/
  (exists e w,
      getHeadBlockNumber (world s) = (inl e, w) /\
      o = Throw (AdapterError e) /\
      s1 = mkSys (reader s) w (trace s ++ [CallGetHeadBlockNumber])).
Proof.
  rewrite refreshHead_eq. destruct (_ || _).
  - destruct (getHeadBlockNumber (world s)) as [[e|h] w]; intros [= <- <-].
    + right. right. by exists e, w.
    + right. left. by exists h, w.
  - intros [= <- <-]. by left.
Qed.

(** The refresh of the head leaves the reader's position and blocks. *)
Lemma refreshHead_position (s s1 : Sys W) (o : Outcome unit) :
  refreshHead s = (o, s1) ->
  currentBlockNumber (reader s1) = currentBlockNumber (reader s) /\
  startAtBlock (reader s1) = startAtBlock (reader s) /\
  blockHistory (reader s1) = blockHistory (reader s) /\
  currentBlockData (reader s1) = currentBlockData (reader s) /\
  getBlock_count (trace s1) = getBlock_count (trace s).
Proof.
  intros E.
  apply refreshHead_cases in E
    as [(_ & ->)|[(h & w & _ & _ & ->)|(e & w & _ & _ & ->)]]; simpl;
    repeat split; unfold getBlock_count;
    rewrite List.filter_app, length_app; simpl; lia.
Qed.

Lemma wrap_skipped (s : Sys W) :
  0 <= currentBlockNumber (reader s) \/ blockHistory (reader s) <> [] ->
  (currentBlockNumber (reader s) <? 0)
  && (len (blockHistory (reader s)) =? 0) = false.
Proof.
  intros [Hpos|Hne]; apply andb_false_iff; [left; lia|right].
  unfold len. destruct (blockHistory (reader s)); [done|]. simpl. lia.
Qed.

(** When the loop of [resolveFork] ends with entries left in the history, it
    ended on a match with the newest of them. *)
Lemma resolveFork_loop_matched (s : Sys W) :
  fst (resolveFork_loop s) = Ok tt ->
  blockHistory (reader (snd (resolveFork_loop s))) <> [] ->
  exists p fetched,
    last (blockHistory (reader (snd (resolveFork_loop s)))) = Some p /\
    currentBlockData (reader (snd (resolveFork_loop s))) = Some fetched /\
    previousBlockHash (blockInfo fetched) = blockHash (blockInfo p).
Proof.
  apply (resolveFork_loop_cases (fun s res =>
    fst res = Ok tt ->
    blockHistory (reader (snd res)) <> [] ->
    exists p fetched,
      last (blockHistory (reader (snd res))) = Some p /\
      currentBlockData (reader (snd res)) = Some fetched /\
      previousBlockHash (blockInfo fetched) = blockHash (blockInfo p))).
  - by intros s0 Hempty _ Hne.
  - by intros s0 h p _ _.
  - by intros s0 h p cur e w _ _ _.
  - intros s0 h p cur fetched w Eh _ _ Em _ _. exists p, fetched. simpl.
    by rewrite Eh, last_snoc.
  - intros s0 h p cur fetched w res _ _ _ _ IH. exact IH.
Qed.

(** What [resolveFork] has done when it returns. *)
Lemma resolveFork_returned (s s' : Sys W) :
  resolveFork s = (Ok tt, s') ->
  exists newest fetched,
    last (blockHistory (reader s')) = Some newest /\
    currentBlockData (reader s') = Some fetched /\
    previousBlockHash (blockInfo fetched) = blockHash (blockInfo newest) /\
    currentBlockNumber (reader s') = blockNumber (blockInfo newest) + 1 /\
    blockHistory (reader s') `prefix_of` blockHistory (reader s) /\
    startAtBlock (reader s') = startAtBlock (reader s).
Proof.
  unfold resolveFork. rewrite resolveFork_with_eq.
  destruct (currentBlockData (reader s)); [|done].
  pose proof (resolveFork_loop_matched s) as Hm.
  pose proof (resolveFork_loop_frame s) as ((_ & _ & _ & Hs & _) & Hp & _).
  destruct (resolveFork_loop s) as [[[]|e] s1]; simpl in *; [|done].
  destruct (blockHistory (reader s1)) as [|b1 l] eqn:Eh; [done|].
  destruct Hm as (p & fetched & El & Ec & Em); [done..|].
  rewrite El. intros [= <-]. exists p, fetched. simpl. by rewrite Eh.
Qed.

(** X3: when the adapter rejects the call that [nextBlock()] makes first,
    be it the refresh of the head or the fetch of the next block,
    [nextBlock()] throws what the adapter rejected with and leaves every
    field of the reader as it was, so that the call can be made again. *)
Theorem nextBlock_rejection_keeps_reader :
  (forall (s : Sys W) (e : string) (w : W),
      currentBlockNumber (reader s) = headBlockNumber (reader s) \/
      headBlockNumber (reader s) = 0 ->
      getHeadBlockNumber (world s) = (inl e, w) ->
      nextBlock s =
        (Throw (AdapterError e),
         mkSys (reader s) w (trace s ++ [CallGetHeadBlockNumber]))) /\
  (forall (s : Sys W) (e : string) (w : W),
      headBlockNumber (reader s) <> 0 ->
      0 <= currentBlockNumber (reader s) \/ blockHistory (reader s) <> [] ->
      currentBlockNumber (reader s) < headBlockNumber (reader s) ->
      getBlock (currentBlockNumber (reader s) + 1) (world s) = (inl e, w) ->
      nextBlock s =
        (Throw (AdapterError e),
         mkSys (reader s) w
           (trace s ++ [CallGetBlock (currentBlockNumber (reader s) + 1)]))).
Proof.
  split.
  - intros s e w Hcond Ehead.
    unfold nextBlock. rewrite nextBlock_with_eq, refreshHead_eq.
    assert (((currentBlockNumber (reader s) =? headBlockNumber (reader s))
             || (headBlockNumber (reader s) =? 0)) = true) as ->.
    { apply orb_true_iff. destruct Hcond; [left|right]; lia. }
    by rewrite Ehead.
  - intros s e w Hknown Hwrap Hbehind Eblock.
    unfold nextBlock. rewrite nextBlock_with_eq, refreshHead_eq.
    assert (((currentBlockNumber (reader s) =? headBlockNumber (reader s))
             || (headBlockNumber (reader s) =? 0)) = false) as ->.
    { apply orb_false_iff. lia. }
    rewrite wrapToEnd_eq, wrap_skipped by done. simpl.
    rewrite processBehind_eq.
    assert ((currentBlockNumber (reader s) <? headBlockNumber (reader s))
            = true) as -> by lia.
    cbv zeta. by rewrite Eblock.
Qed.

(** X4: a call that returns [isNewBlock = false] has returned the block the
    reader already held, has not called [getBlock], and has left
    [currentBlockNumber], [currentBlockData], [blockHistory] and
    [startAtBlock] as they were; and [isRollback] is false then. *)
Theorem nextBlock_not_new_keeps (s s' : Sys W) (b : Block) (rollback : bool) :
  nextBlock s = (Ok (b, rollback, false), s') ->
  rollback = false /\
  currentBlockData (reader s) = Some b /\
  currentBlockData (reader s') = Some b /\
  currentBlockNumber (reader s') = currentBlockNumber (reader s) /\
  blockHistory (reader s') = blockHistory (reader s) /\
  startAtBlock (reader s') = startAtBlock (reader s) /\
  getBlock_count (trace s') = getBlock_count (trace s).
Proof.
  unfold nextBlock. rewrite nextBlock_with_eq.
  destruct (refreshHead s) as [[[]|e] s1] eqn:Er; [|done].
  destruct (refreshHead_position s s1 _ Er) as (En & Es & Eh & Ec & Et).
  rewrite wrapToEnd_eq. simpl. rewrite processBehind_eq.
  destruct ((currentBlockNumber (reader s1) <? 0)
            && (len (blockHistory (reader s1)) =? 0)) eqn:Ewrap; simpl.
  { apply andb_true_iff in Ewrap as [Hneg _].
    assert ((headBlockNumber (reader s1) + currentBlockNumber (reader s1)
             <? headBlockNumber (reader s1)) = true) as -> by lia.
    cbv zeta. destruct (getBlock _ _) as [[e|b0] w]; [done|].
    destruct (continues _ b0).
    - rewrite commitBlock_eq, finish_eq. simpl. congruence.
    - destruct (resolveFork_with historyExhausted _) as [[[]|e] s3]; [|done].
      destruct (getHeadBlockNumber (world s3)) as [[e|h] w']; [done|].
      rewrite finish_eq. simpl.
      destruct (currentBlockData (reader s3)); simpl; congruence. }
  destruct (currentBlockNumber (reader s1) <? headBlockNumber (reader s1)).
  { cbv zeta. destruct (getBlock _ _) as [[e|b0] w]; [done|].
    destruct (continues _ b0).
    - rewrite commitBlock_eq, finish_eq. simpl. congruence.
    - destruct (resolveFork_with historyExhausted _) as [[[]|e] s3]; [|done].
      destruct (getHeadBlockNumber (world s3)) as [[e|h] w']; [done|].
      rewrite finish_eq. simpl.
      destruct (currentBlockData (reader s3)); simpl; congruence. }
  rewrite finish_eq. simpl.
  destruct (currentBlockData (reader s1)) as [cur|] eqn:Ecur; [|done].
  intros [= <- <- <-]. simpl. rewrite <- Ec. by repeat split.
Qed.

(** X5: a call that returns [isRollback = true] also returns
    [isNewBlock = true]; the history it leaves is a prefix of the one it
    found and is not empty; the block it returns is the reader's current
    block and names the newest entry left in the history as its predecessor;
    and [currentBlockNumber] is that entry's number plus one. *)
Theorem nextBlock_rollback_links (s s' : Sys W) (b : Block) (new : bool) :
  nextBlock s = (Ok (b, true, new), s') ->
  new = true /\
  currentBlockData (reader s') = Some b /\
  blockHistory (reader s') `prefix_of` blockHistory (reader s) /\
  exists newest,
    last (blockHistory (reader s')) = Some newest /\
    previousBlockHash (blockInfo b) = blockHash (blockInfo newest) /\
    currentBlockNumber (reader s') = blockNumber (blockInfo newest) + 1.
Proof.
  unfold nextBlock. rewrite nextBlock_with_eq.
  destruct (refreshHead s) as [[[]|e] s1] eqn:Er; [|done].
  destruct (prelude_keeps_blocks s s1 _ Er) as (_ & Eh & _).
  set (s2 := snd (wrapToEnd s1)) in *. clearbody s2.
  rewrite processBehind_eq.
  destruct (_ <? _).
  2:{ rewrite finish_eq. simpl.
      destruct (currentBlockData (reader s2)); simpl; congruence. }
  cbv zeta. destruct (getBlock _ _) as [[e|b0] w]; [done|].
  destruct (continues _ b0).
  { rewrite commitBlock_eq, finish_eq. simpl. congruence. }
  match goal with |- context [resolveFork_with historyExhausted ?s0] =>
    pose proof (resolveFork_returned s0) as Hr; unfold resolveFork in Hr;
    destruct (resolveFork_with historyExhausted s0) as [[[]|e] s3]; [|done]
  end.
  destruct (Hr s3 eq_refl) as (newest & fetched & El & Ec & Em & En & Ep & _).
  simpl in Ep. rewrite Eh in Ep.
  destruct (getHeadBlockNumber (world s3)) as [[e|h] w']; [done|].
  rewrite finish_eq. simpl. rewrite Ec. intros [= <- <- <-]. simpl.
  repeat split; [done..|]. by exists newest.
Qed.

(** X6: with an adapter that answers [getBlock(n)] with a block numbered
    [n], a call that commits from a position that is not the negative one of
    a reader still to start returns the block numbered one more than
    [currentBlockNumber] was, and [currentBlockNumber] is that number
    afterwards. *)
Theorem nextBlock_commit_advances_by_one (s s' : Sys W) (b : Block) :
  numbers_as_asked W ->
  0 <= currentBlockNumber (reader s) \/ blockHistory (reader s) <> [] ->
  nextBlock s = (Ok (b, false, true), s') ->
  blockNumber (blockInfo b) = currentBlockNumber (reader s) + 1 /\
  currentBlockNumber (reader s') = currentBlockNumber (reader s) + 1.
Proof.
  intros Hasked Hwrap. unfold nextBlock. rewrite nextBlock_with_eq.
  destruct (refreshHead s) as [[[]|e] s1] eqn:Er; [|done].
  destruct (refreshHead_position s s1 _ Er) as (En & _ & Eh & _).
  rewrite wrapToEnd_eq, wrap_skipped by (by rewrite En, Eh). simpl.
  rewrite processBehind_eq.
  destruct (_ <? _).
  2:{ rewrite finish_eq. simpl.
      destruct (currentBlockData (reader s1)); simpl; congruence. }
  cbv zeta. destruct (getBlock _ _) as [[e|b0] w] eqn:Eg; [done|].
  apply Hasked in Eg.
  destruct (continues _ b0).
  - rewrite commitBlock_eq, finish_eq. simpl. intros [= <- <-]. simpl.
    rewrite Eg, En. done.
  - destruct (resolveFork_with historyExhausted _) as [[[]|e] s3]; [|done].
    destruct (getHeadBlockNumber (world s3)) as [[e|h] w']; [done|].
    rewrite finish_eq. simpl.
    destruct (currentBlockData (reader s3)); simpl; congruence.
Qed.

End Returns.

(** The adapter gives out under a reader that is on the head block, and
    under one that still has blocks to read. *)
Lemma nextBlock_rejection_keeps_reader_witness :
  nextBlock (flaky 0 (readTo 10)) =
    (Throw (AdapterError "unavailable"),
     mkSys (reader (flaky 0 (readTo 10))) (mkFlaky 0 (mainChain 10))
       (trace (flaky 0 (readTo 10)) ++ [CallGetHeadBlockNumber])) /\
  nextBlock (flaky 0 (readTo 3)) =
    (Throw (AdapterError "unavailable"),
     mkSys (reader (flaky 0 (readTo 3))) (mkFlaky 0 (mainChain 10))
       (trace (flaky 0 (readTo 3))
        ++ [CallGetBlock (currentBlockNumber (reader (flaky 0 (readTo 3))) + 1)])).
Proof.
  split.
  - apply (proj1 nextBlock_rejection_keeps_reader (flaky 0 (readTo 10))).
    + left. vm_compute. reflexivity.
    + vm_compute. reflexivity.
  - apply (proj2 nextBlock_rejection_keeps_reader (flaky 0 (readTo 3))).
    + vm_compute. congruence.
    + left. vm_compute. congruence.
    + vm_compute. reflexivity.
    + vm_compute. reflexivity.
Defined.

(** The default reader on the head block of its chain, called once more. *)
Lemma nextBlock_not_new_keeps_witness :
  false = false /\
  currentBlockData (reader (readTo 10)) = Some (simBlock (mainChain 10) 10) /\
  currentBlockData (reader (readTo 11)) = Some (simBlock (mainChain 10) 10) /\
  currentBlockNumber (reader (readTo 11)) =
    currentBlockNumber (reader (readTo 10)) /\
  blockHistory (reader (readTo 11)) = blockHistory (reader (readTo 10)) /\
  startAtBlock (reader (readTo 11)) = startAtBlock (reader (readTo 10)) /\
  getBlock_count (trace (readTo 11)) = getBlock_count (trace (readTo 10)).
Proof.
  apply (nextBlock_not_new_keeps (readTo 10) (readTo 11)
           (simBlock (mainChain 10) 10) false).
  vm_compute. reflexivity.
Defined.

(** The reader with blocks 3 and 4 behind block 5, on the one-block fork. *)
Lemma nextBlock_rollback_links_witness :
  true = true /\
  currentBlockData (reader (after nextBlock shallowFork)) =
    Some (simBlock (mkSimChain 10 5 "B") 5) /\
  blockHistory (reader (after nextBlock shallowFork))
    `prefix_of` blockHistory (reader shallowFork) /\
  exists newest,
    last (blockHistory (reader (after nextBlock shallowFork))) = Some newest /\
    previousBlockHash (blockInfo (simBlock (mkSimChain 10 5 "B") 5)) =
      blockHash (blockInfo newest) /\
    currentBlockNumber (reader (after nextBlock shallowFork)) =
      blockNumber (blockInfo newest) + 1.
Proof.
  apply (nextBlock_rollback_links shallowFork (after nextBlock shallowFork)
           (simBlock (mkSimChain 10 5 "B") 5) true).
  vm_compute. reflexivity.
Defined.

(** The default reader after three blocks, reading the fourth. *)
Lemma nextBlock_commit_advances_by_one_witness :
  blockNumber (blockInfo (simBlock (mainChain 10) 4)) =
    currentBlockNumber (reader (readTo 3)) + 1 /\
  currentBlockNumber (reader (readTo 4)) =
    currentBlockNumber (reader (readTo 3)) + 1.
Proof.
  apply (nextBlock_commit_advances_by_one (readTo 3) (readTo 4)
           (simBlock (mainChain 10) 4) numbers_as_asked_sim).
  - left. vm_compute. congruence.
  - vm_compute. reflexivity.
Defined.

(** ** With and without a history *)

Section History.
Context {W : Type} `{ChainAdapter W}.

(** With an empty history every fetched block continues the chain. *)
Lemma continues_on_empty_history (r : Reader) (b : Block) :
  blockHistory r = [] -> continues r b = true.
Proof. intros E. unfold continues. rewrite E. apply orb_true_r. Qed.

(** When [resolveFork] throws the handler's error it has emptied the
    history and left [currentBlockNumber] and the known head alone. *)
Lemma resolveFork_threw_exhausted (s s' : Sys W) :
  resolveFork s = (Throw (Error exhausted_message), s') ->
  blockHistory (reader s') = [] /\
  currentBlockNumber (reader s') = currentBlockNumber (reader s) /\
  headBlockNumber (reader s') = headBlockNumber (reader s).
Proof.
  unfold resolveFork. rewrite resolveFork_with_eq.
  destruct (currentBlockData (reader s)) eqn:Ec; [|done].
  pose proof (resolveFork_loop_outcome s) as [_ Hthrow]; [by rewrite Ec|].
  pose proof (resolveFork_loop_frame s) as ((Hh & Hn & _) & _ & _).
  destruct (resolveFork_loop s) as [[[]|e] s1]; simpl in *.
  2:{ intros [= -> _]. by destruct (Hthrow _ eq_refl). }
  destruct (blockHistory (reader s1)) as [|b1 l] eqn:Eh.
  - intros [= <-]. simpl. by rewrite Eh.
  - destruct (last (b1 :: l)); done.
Qed.

(** X7: history exhaustion does not stop the reader.  When [nextBlock()] has
    thrown the handler's error, the history is empty, and the next call
    (asked at a position that is not negative) fetches the same block number
    again and commits what the adapter gives, whatever its
    [previousBlockHash], returning it with [isRollback = false]. *)
Theorem nextBlock_after_exhaustion_commits (s : Sys W) (b : Block) (w : W) :
  0 <= currentBlockNumber (reader s) ->
  fst (nextBlock s) = Throw (Error exhausted_message) ->
  getBlock (currentBlockNumber (reader s) + 1) (world (after nextBlock s)) =
    (inr b, w) ->
  blockHistory (reader (after nextBlock s)) = [] /\
  currentBlockNumber (reader (after nextBlock s)) =
    currentBlockNumber (reader s) /\
  fst (nextBlock (after nextBlock s)) = Ok (b, false, true) /\
  trace (after nextBlock (after nextBlock s)) =
    trace (after nextBlock s)
    ++ [CallGetBlock (currentBlockNumber (reader s) + 1)].
Proof.
  intros Hpos Hthrow Eblock.
  assert (blockHistory (reader (after nextBlock s)) = [] /\
          currentBlockNumber (reader (after nextBlock s)) =
            currentBlockNumber (reader s) /\
          currentBlockNumber (reader s) <
            headBlockNumber (reader (after nextBlock s)))
    as (Hempty & Hn & Hbehind).
  { clear Eblock. revert Hthrow. unfold after, nextBlock.
    rewrite nextBlock_with_eq.
    destruct (refreshHead s) as [[[]|e] s1] eqn:Er.
    2:{ apply refreshHead_cases in Er as [(? & _)|[(? & ? & _ & ? & _)|
          (? & ? & _ & ? & _)]]; simpl; congruence. }
    destruct (refreshHead_position s s1 _ Er) as (En & _ & Eh & _).
    rewrite wrapToEnd_eq, wrap_skipped by (left; by rewrite En). simpl.
    rewrite processBehind_eq.
    destruct (currentBlockNumber (reader s1) <? headBlockNumber (reader s1))
      eqn:Ebehind.
    2:{ rewrite finish_eq. simpl.
        by destruct (currentBlockData (reader s1)). }
    cbv zeta. destruct (getBlock _ _) as [[e|b0] w0]; [done|].
    destruct (continues _ b0).
    { rewrite commitBlock_eq, finish_eq. done. }
    match goal with |- context [resolveFork_with historyExhausted ?s0] =>
      pose proof (resolveFork_threw_exhausted s0) as Hr;
      unfold resolveFork in Hr;
      destruct (resolveFork_with historyExhausted s0) as [[[]|e] s3]
    end.
    { destruct (getHeadBlockNumber (world s3)) as [[e|h] w']; [done|].
      rewrite finish_eq. simpl. by destruct (currentBlockData (reader s3)). }
    simpl. intros [= ->].
    destruct (Hr s3 eq_refl) as (Hempty & Hn & Hh). simpl in *.
    split; [done|]. split; [congruence|]. lia. }
  split; [done|]. split; [done|].
  set (s' := after nextBlock s) in *. clearbody s'.
  unfold after, nextBlock. rewrite nextBlock_with_eq, refreshHead_eq.
  assert (((currentBlockNumber (reader s') =? headBlockNumber (reader s'))
           || (headBlockNumber (reader s') =? 0)) = false) as ->.
  { apply orb_false_iff. lia. }
  rewrite wrapToEnd_eq, wrap_skipped by (left; lia). simpl.
  rewrite processBehind_eq.
  assert ((currentBlockNumber (reader s') <? headBlockNumber (reader s'))
          = true) as -> by lia.
  cbv zeta. rewrite Hn, Eblock.
  rewrite continues_on_empty_history by done.
  rewrite commitBlock_eq, finish_eq. simpl. by split.
Qed.

(** With an empty history [nextBlock] neither reports a rollback nor runs
    into the handler's error. *)
Lemma nextBlock_without_history (s : Sys W) :
  blockHistory (reader s) = [] ->
  (forall b new, fst (nextBlock s) <> Ok (b, true, new)) /\
  fst (nextBlock s) <> Throw (Error exhausted_message).
Proof.
  intros Hempty. unfold nextBlock. rewrite nextBlock_with_eq.
  destruct (refreshHead s) as [[[]|e] s1] eqn:Er.
  2:{ apply refreshHead_cases in Er as [(? & _)|[(? & ? & _ & ? & _)|
        (? & ? & _ & ? & _)]]; simpl; split; congruence. }
  destruct (prelude_keeps_blocks s s1 _ Er) as (_ & Eh & _).
  set (s2 := snd (wrapToEnd s1)) in *. clearbody s2.
  rewrite processBehind_eq.
  destruct (_ <? _).
  2:{ rewrite finish_eq. simpl.
      unfold exhausted_message.
      destruct (currentBlockData (reader s2)); simpl; split; congruence. }
  cbv zeta. destruct (getBlock _ _) as [[e|b0] w0]; [by split|].
  rewrite continues_on_empty_history by congruence.
  rewrite commitBlock_eq, finish_eq. simpl. split; congruence.
Qed.

(** X8: a reader constructed with [maxHistoryLength] zero or negative never
    has a block in its history, so it never reports a rollback and never runs
    the history handler: whatever the adapter returns is committed. *)
Theorem no_history_no_rollback (k : Z) (irreversible : bool) (maxLen : Z)
    (w : W) (n : nat) :
  maxLen <= 0 ->
  blockHistory
    (reader (advance n (boot (constructor k irreversible maxLen) w))) = [] /\
  (forall b new,
      fst (nextBlock (advance n (boot (constructor k irreversible maxLen) w)))
      <> Ok (b, true, new)) /\
  fst (nextBlock (advance n (boot (constructor k irreversible maxLen) w)))
  <> Throw (Error exhausted_message).
Proof.
  intros Hmax.
  set (s0 := boot (constructor k irreversible maxLen) w).
  assert (blockHistory (reader (advance n s0)) = [] /\
          maxHistoryLength (reader (advance n s0)) = maxLen) as [Hempty Hm].
  { induction n as [|n [IHe IHm]]; [done|].
    rewrite advance_snoc.
    destruct (nextBlock_history (advance n s0)) as [Em [Hp|Ht]].
    - rewrite IHe in Hp. apply prefix_nil_inv in Hp. by rewrite Em.
    - split; [|by rewrite Em]. rewrite Ht.
      unfold pushedAndTrimmed, splice_front. apply drop_ge.
      rewrite IHm. unfold len. lia. }
  split; [done|].
  destruct (nextBlock_without_history (advance n s0) Hempty) as [Hr He].
  by split.
Qed.

End History.

(** The reader on the deep fork: the call after the one that ran out of
    history commits block 6 of the new branch. *)
Lemma nextBlock_after_exhaustion_commits_witness :
  blockHistory (reader (after nextBlock deepFork)) = [] /\
  currentBlockNumber (reader (after nextBlock deepFork)) =
    currentBlockNumber (reader deepFork) /\
  fst (nextBlock (after nextBlock deepFork)) =
    Ok (simBlock (mkSimChain 10 2 "B") 6, false, true) /\
  trace (after nextBlock (after nextBlock deepFork)) =
    trace (after nextBlock deepFork)
    ++ [CallGetBlock (currentBlockNumber (reader deepFork) + 1)].
Proof.
  apply (nextBlock_after_exhaustion_commits deepFork
           (simBlock (mkSimChain 10 2 "B") 6) (mkSimChain 10 2 "B")).
  - vm_compute. congruence.
  - vm_compute. reflexivity.
  - vm_compute. reflexivity.
Defined.

(** A reader constructed with [maxHistoryLength = 0], after five calls. *)
Lemma no_history_no_rollback_witness :
  blockHistory
    (reader (advance 5 (boot (constructor 1 false 0) (mainChain 10)))) = [] /\
  (forall b new,
      fst (nextBlock (advance 5 (boot (constructor 1 false 0) (mainChain 10))))
      <> Ok (b, true, new)) /\
  fst (nextBlock (advance 5 (boot (constructor 1 false 0) (mainChain 10))))
  <> Throw (Error exhausted_message).
Proof.
  apply (no_history_no_rollback 1 false 0 (mainChain 10) 5). lia.
Defined.

(** ** Seeking *)

Section Seeking.
Context {W : Type} `{ChainAdapter W}.

Lemma seekToBlock_eq (n : Z) (s : Sys W) :
  seekToBlock n s =
  if n <? startAtBlock (reader s)
  then (Throw (Error "Cannot seek to block before configured startAtBlock."),
        mkSys (set_headBlockNumber 0 (set_currentBlockData None (reader s)))
              (world s) (trace s))
  else if n =? 1
  then (Ok tt,
        mkSys (set_currentBlockNumber 0
                 (set_blockHistory []
                    (set_headBlockNumber 0
                       (set_currentBlockData None (reader s)))))
              (world s) (trace s))
  else
    match currentBlockData (sought n (reader s)) with
    | Some _ => (Ok tt, mkSys (sought n (reader s)) (world s) (trace s))
    | None =>
      match getBlock (n - 1) (world s) with
      | (inr b, w) =>
        (Ok tt,
         mkSys (set_currentBlockData (Some b) (sought n (reader s))) w
               (trace s ++ [CallGetBlock (n - 1)]))
      | (inl e, w) =>
        (Throw (AdapterError e),
         mkSys (sought n (reader s)) w (trace s ++ [CallGetBlock (n - 1)]))
      end
    end.
Proof.
  unfold seekToBlock, sought. run_reader.
  destruct (n <? startAtBlock (reader s)); [done|].
  destruct (n =? 1); [done|].
  destruct (0 <=? seek_scan _ _ _ _); simpl.
  - destruct (last _); [done|]. simpl.
    by destruct (getBlock (n - 1) (world s)) as [[e|b] w].
  - by destruct (getBlock (n - 1) (world s)) as [[e|b] w].
Qed.

Lemma pop_prefix {A} (l : list A) : pop l `prefix_of` l.
Proof.
  unfold pop. destruct l as [|x l _] using rev_ind; [done|].
  rewrite removelast_last. by apply prefix_app_r.
Qed.

Lemma sought_frame (n : Z) (r : Reader) :
  currentBlockNumber (sought n r) = n - 1 /\
  headBlockNumber (sought n r) = 0 /\
  blockHistory (sought n r) `prefix_of` blockHistory r /\
  startAtBlock (sought n r) = startAtBlock r /\
  maxHistoryLength (sought n r) = maxHistoryLength r /\
  isFirstBlock (sought n r) = isFirstBlock r.
Proof.
  unfold sought. destruct (0 <=? _); simpl; repeat split; try done.
  etrans; [apply pop_prefix|]. unfold splice_from. apply prefix_take.
Qed.

(** X9: a [seekToBlock(n)] that passes the check against [startAtBlock]
    leaves [currentBlockNumber = n - 1] and [headBlockNumber = 0] whether it
    returns or the adapter rejects; it never adds to the history (what is
    left is a prefix of it), keeps [startAtBlock], [maxHistoryLength] and
    [isFirstBlock], calls the adapter at most once, with [getBlock(n - 1)],
    and throws nothing but what that call rejected with. *)
Theorem seekToBlock_positions (n : Z) (s : Sys W) :
  startAtBlock (reader s) <= n ->
  currentBlockNumber (reader (after (seekToBlock n) s)) = n - 1 /\
  headBlockNumber (reader (after (seekToBlock n) s)) = 0 /\
  blockHistory (reader (after (seekToBlock n) s))
    `prefix_of` blockHistory (reader s) /\
  startAtBlock (reader (after (seekToBlock n) s)) = startAtBlock (reader s) /\
  maxHistoryLength (reader (after (seekToBlock n) s)) =
    maxHistoryLength (reader s) /\
  isFirstBlock (reader (after (seekToBlock n) s)) = isFirstBlock (reader s) /\
  (trace (after (seekToBlock n) s) = trace s \/
   trace (after (seekToBlock n) s) = trace s ++ [CallGetBlock (n - 1)]) /\
  (fst (seekToBlock n s) = Ok tt \/
   exists e, fst (seekToBlock n s) = Throw (AdapterError e)).
Proof.
  intros Hn. unfold after. rewrite seekToBlock_eq.
  assert ((n <? startAtBlock (reader s)) = false) as -> by lia.
  destruct (Z.eqb_spec n 1) as [->|Hne].
  { simpl. repeat split; auto. apply prefix_nil. }
  destruct (sought_frame n (reader s)) as (En & Eh & Ep & Es & Em & Ef).
  destruct (currentBlockData (sought n (reader s))); simpl.
  { repeat split; auto. }
  destruct (getBlock (n - 1) (world s)) as [[e|b] w]; simpl.
  - repeat split; auto. right. by exists e.
  - repeat split; auto.
Qed.

(** X10: on a reader whose history is empty, or for block 1, a
    [seekToBlock(n)] that returns, followed by [nextBlock()] with the head at
    [n] or beyond, makes the adapter fetch block [n] and returns it as a new
    block without rollback. *)
Theorem seek_then_next (n : Z) (s s1 : Sys W) (h : Z) (b : Block) (w2 w3 : W) :
  startAtBlock (reader s) <= n ->
  1 <= n ->
  n = 1 \/ blockHistory (reader s) = [] ->
  seekToBlock n s = (Ok tt, s1) ->
  getHeadBlockNumber (world s1) = (inr h, w2) ->
  n <= h ->
  getBlock n w2 = (inr b, w3) ->
  nextBlock s1 =
    (Ok (b, false, true), after nextBlock s1) /\
  currentBlockData (reader (after nextBlock s1)) = Some b /\
  trace (after nextBlock s1) =
    trace s1 ++ [CallGetHeadBlockNumber; CallGetBlock n].
Proof.
  intros Hstart Hn Hcase Eseek Ehead Hh Eblock.
  assert (currentBlockNumber (reader s1) = n - 1 /\
          headBlockNumber (reader s1) = 0 /\
          blockHistory (reader s1) = []) as (En & Ehd & Eempty).
  { rewrite seekToBlock_eq in Eseek.
    assert ((n <? startAtBlock (reader s)) = false) as Hlt by lia.
    rewrite Hlt in Eseek.
    destruct (Z.eqb_spec n 1) as [->|Hne]; [by injection Eseek as <-|].
    destruct Hcase as [?|Hempty]; [done|].
    assert (sought n (reader s) =
            set_currentBlockNumber (n - 1)
              (set_headBlockNumber 0 (set_currentBlockData None (reader s))))
      as Es by (unfold sought; by rewrite Hempty).
    rewrite Es in Eseek. simpl in Eseek.
    destruct (getBlock (n - 1) (world s)) as [[e|b'] w]; [done|].
    by injection Eseek as <-. }
  unfold after, nextBlock. rewrite nextBlock_with_eq, refreshHead_eq.
  rewrite Ehd. rewrite orb_true_r, Ehead.
  rewrite wrapToEnd_eq. simpl.
  assert ((currentBlockNumber (reader s1) <? 0) = false) as -> by lia. simpl.
  rewrite processBehind_eq. simpl.
  assert ((currentBlockNumber (reader s1) <? h) = true) as -> by lia.
  rewrite En. replace (n - 1 + 1) with n by lia. rewrite Eblock.
  rewrite continues_on_empty_history by done.
  rewrite commitBlock_eq, finish_eq. simpl.
  rewrite <- app_assoc. by repeat split.
Qed.

End Seeking.

(** The default reader with blocks 1 to 5 behind block 6, sent to block 3. *)
Lemma seekToBlock_positions_witness :
  currentBlockNumber (reader (after (seekToBlock 3) (readTo 6))) = 3 - 1 /\
  headBlockNumber (reader (after (seekToBlock 3) (readTo 6))) = 0 /\
  blockHistory (reader (after (seekToBlock 3) (readTo 6)))
    `prefix_of` blockHistory (reader (readTo 6)) /\
  startAtBlock (reader (after (seekToBlock 3) (readTo 6))) =
    startAtBlock (reader (readTo 6)) /\
  maxHistoryLength (reader (after (seekToBlock 3) (readTo 6))) =
    maxHistoryLength (reader (readTo 6)) /\
  isFirstBlock (reader (after (seekToBlock 3) (readTo 6))) =
    isFirstBlock (reader (readTo 6)) /\
  (trace (after (seekToBlock 3) (readTo 6)) = trace (readTo 6) \/
   trace (after (seekToBlock 3) (readTo 6)) =
     trace (readTo 6) ++ [CallGetBlock (3 - 1)]) /\
  (fst (seekToBlock 3 (readTo 6)) = Ok tt \/
   exists e, fst (seekToBlock 3 (readTo 6)) = Throw (AdapterError e)).
Proof.
  apply (seekToBlock_positions 3 (readTo 6)). vm_compute. congruence.
Defined.

(** The default reader after three blocks, sent back to block 1. *)
Lemma seek_then_next_witness :
  nextBlock (after (seekToBlock 1) (readTo 3)) =
    (Ok (simBlock (mainChain 10) 1, false, true),
     after nextBlock (after (seekToBlock 1) (readTo 3))) /\
  currentBlockData
    (reader (after nextBlock (after (seekToBlock 1) (readTo 3)))) =
    Some (simBlock (mainChain 10) 1) /\
  trace (after nextBlock (after (seekToBlock 1) (readTo 3))) =
    trace (after (seekToBlock 1) (readTo 3))
    ++ [CallGetHeadBlockNumber; CallGetBlock 1].
Proof.
  apply (seek_then_next 1 (readTo 3) (after (seekToBlock 1) (readTo 3)) 10
           (simBlock (mainChain 10) 1) (mainChain 10) (mainChain 10)).
  - vm_compute. congruence.
  - lia.
  - by left.
  - vm_compute. reflexivity.
  - vm_compute. reflexivity.
  - lia.
  - vm_compute. reflexivity.
Defined.

(** ** After a rejected seek, and the calls a method makes *)

Section Calls.
Context {W : Type} `{ChainAdapter W}.

(** X11: a [seekToBlock(n)] rejected for [n < startAtBlock] has cleared
    [currentBlockData] and kept the history.  If the history is not empty,
    the next [nextBlock()] that has a block to fetch (one whose
    [previousBlockHash] is not the string "INVALID") takes it for a fork and
    throws "`currentBlockData` must not be null when initiating fork
    resolution.", leaving the reader without a current block. *)
Theorem nextBlock_after_rejected_seek (n : Z) (s : Sys W) (h : Z) (b : Block)
    (w1 w2 : W) :
  n < startAtBlock (reader s) ->
  blockHistory (reader s) <> [] ->
  0 <= currentBlockNumber (reader s) ->
  getHeadBlockNumber (world s) = (inr h, w1) ->
  currentBlockNumber (reader s) < h ->
  getBlock (currentBlockNumber (reader s) + 1) w1 = (inr b, w2) ->
  previousBlockHash (blockInfo b) <> "INVALID" ->
  nextBlock (after (seekToBlock n) s) =
    (Throw (Error "`currentBlockData` must not be null when initiating fork resolution."),
     mkSys (set_headBlockNumber h (set_currentBlockData None (reader s))) w2
       (trace s ++ [CallGetHeadBlockNumber;
                    CallGetBlock (currentBlockNumber (reader s) + 1)])).
Proof.
  intros Hn Hhist Hpos Ehead Hbehind Eblock Hprev.
  unfold after. rewrite seekToBlock_eq.
  assert ((n <? startAtBlock (reader s)) = true) as -> by lia. simpl.
  unfold nextBlock. rewrite nextBlock_with_eq, refreshHead_eq. simpl.
  rewrite orb_true_r, Ehead, wrapToEnd_eq. simpl.
  assert ((currentBlockNumber (reader s) <? 0) = false) as -> by lia. simpl.
  rewrite processBehind_eq. simpl.
  assert ((currentBlockNumber (reader s) <? h) = true) as -> by lia.
  rewrite Eblock.
  match goal with |- context [continues ?r b] =>
    assert (continues r b = false) as ->
  end.
  { unfold continues.
    cbn [currentBlockData blockHistory set_headBlockNumber
         set_currentBlockData].
    apply orb_false_iff. split.
    - apply String.eqb_neq. congruence.
    - apply Z.eqb_neq. unfold len.
      destruct (blockHistory (reader s)); [done|]. cbn [length]. lia. }
  rewrite <- app_assoc. reflexivity.
Qed.

Lemma getBlock_count_snoc (t : list Event) (e : Event) :
  getBlock_count (t ++ [e]) =
  (getBlock_count t + if is_getBlock e then 1 else 0)%nat.
Proof.
  unfold getBlock_count. rewrite List.filter_app, length_app. simpl.
  by destruct (is_getBlock e).
Qed.

Lemma getHead_count_snoc (t : list Event) (e : Event) :
  getHead_count (t ++ [e]) =
  (getHead_count t + if is_getHeadBlockNumber e then 1 else 0)%nat.
Proof.
  unfold getHead_count. rewrite List.filter_app, length_app. simpl.
  by destruct (is_getHeadBlockNumber e).
Qed.

(** The loop fetches at most one block for each entry of the history. *)
Lemma resolveFork_loop_calls (s : Sys W) :
  (getBlock_count (trace (snd (resolveFork_loop s))) <=
   getBlock_count (trace s) + length (blockHistory (reader s)))%nat /\
  getHead_count (trace (snd (resolveFork_loop s))) = getHead_count (trace s).
Proof.
  apply (resolveFork_loop_cases (fun s res =>
    (getBlock_count (trace (snd res)) <=
     getBlock_count (trace s) + length (blockHistory (reader s)))%nat /\
    getHead_count (trace (snd res)) = getHead_count (trace s))).
  - intros s0 _. simpl. lia.
  - intros s0 h p _ _. simpl. lia.
  - intros s0 h p cur e w Eh _ _. simpl.
    rewrite getBlock_count_snoc, getHead_count_snoc, Eh, length_app.
    simpl. lia.
  - intros s0 h p cur fetched w Eh _ _ _. simpl.
    rewrite getBlock_count_snoc, getHead_count_snoc, Eh, length_app.
    simpl. lia.
  - intros s0 h p cur fetched w res Eh _ _ _ [IHb IHh]. simpl in *.
    rewrite getBlock_count_snoc, getHead_count_snoc in *.
    unfold pop in IHb. rewrite Eh, removelast_last in IHb.
    rewrite Eh, length_app. simpl in *. lia.
Qed.

Lemma resolveFork_calls (s : Sys W) :
  (getBlock_count (trace (snd (resolveFork s))) <=
   getBlock_count (trace s) + length (blockHistory (reader s)))%nat /\
  getHead_count (trace (snd (resolveFork s))) = getHead_count (trace s).
Proof.
  unfold resolveFork. rewrite resolveFork_with_eq.
  destruct (currentBlockData (reader s)); [|simpl; lia].
  pose proof (resolveFork_loop_calls s) as [Hb Hh].
  destruct (resolveFork_loop s) as [[[]|e] s1]; simpl in *; [|lia].
  destruct (blockHistory (reader s1)) as [|b1 l]; simpl.
  - rewrite getBlock_count_snoc, getHead_count_snoc. simpl. lia.
  - destruct (last (b1 :: l)); simpl; lia.
Qed.

(** X12: one call of [nextBlock()] calls [getHeadBlockNumber] at most twice
    and [getBlock] at most once more than there are blocks in the history. *)
Theorem nextBlock_call_bound (s : Sys W) :
  (getHead_count (trace (after nextBlock s)) <=
   getHead_count (trace s) + 2)%nat /\
  (getBlock_count (trace (after nextBlock s)) <=
   getBlock_count (trace s) + 1 + length (blockHistory (reader s)))%nat.
Proof.
  unfold after, nextBlock. rewrite nextBlock_with_eq.
  destruct (refreshHead s) as [[[]|e] s1] eqn:Er.
  2:{ apply refreshHead_cases in Er as [(? & ->)|[(? & ? & _ & ? & ->)|
        (? & ? & _ & ? & ->)]]; simpl;
        rewrite ?getBlock_count_snoc, ?getHead_count_snoc; simpl; lia. }
  destruct (prelude_keeps_blocks s s1 _ Er) as (_ & Eh & _).
  assert ((getHead_count (trace (snd (wrapToEnd s1))) <=
           getHead_count (trace s) + 1)%nat /\
          getBlock_count (trace (snd (wrapToEnd s1))) =
            getBlock_count (trace s)) as [Hh Hb].
  { rewrite wrapToEnd_eq. simpl.
    assert (trace (if (currentBlockNumber (reader s1) <? 0)
                      && (len (blockHistory (reader s1)) =? 0)
                   then mkSys
                          (set_startAtBlock
                             (headBlockNumber (reader s1)
                              + currentBlockNumber (reader s1) + 1)
                             (set_currentBlockNumber
                                (headBlockNumber (reader s1)
                                 + currentBlockNumber (reader s1))
                                (reader s1)))
                          (world s1) (trace s1)
                   else s1) = trace s1) as -> by (by destruct (_ && _)).
    apply refreshHead_cases in Er as [(_ & ->)|[(? & ? & _ & _ & ->)|
        (? & ? & _ & ? & _)]]; simpl;
      rewrite ?getBlock_count_snoc, ?getHead_count_snoc; simpl;
      try lia; done. }
  set (s2 := snd (wrapToEnd s1)) in *. clearbody s2. clear Er s1.
  rewrite <- Eh. rewrite processBehind_eq.
  destruct (_ <? _).
  2:{ rewrite finish_eq. simpl. lia. }
  cbv zeta. destruct (getBlock _ _) as [[e|b0] w0].
  { simpl. rewrite getBlock_count_snoc, getHead_count_snoc. simpl. lia. }
  destruct (continues _ b0).
  { rewrite commitBlock_eq, finish_eq. simpl.
    rewrite getBlock_count_snoc, getHead_count_snoc. simpl. lia. }
  match goal with |- context [resolveFork_with historyExhausted ?s0] =>
    pose proof (resolveFork_calls s0) as [Hrb Hrh]; unfold resolveFork in *;
    destruct (resolveFork_with historyExhausted s0) as [[[]|e] s3]
  end; simpl in Hrb, Hrh;
    rewrite getBlock_count_snoc, getHead_count_snoc in *; simpl in *.
  2:{ lia. }
  destruct (getHeadBlockNumber (world s3)) as [[e|h] w']; simpl.
  - rewrite getBlock_count_snoc, getHead_count_snoc. simpl. lia.
  - rewrite finish_eq. simpl.
    rewrite getBlock_count_snoc, getHead_count_snoc. simpl. lia.
Qed.

End Calls.

(** The default reader after three blocks, sent to block 0 and called
    again. *)
Lemma nextBlock_after_rejected_seek_witness :
  nextBlock (after (seekToBlock 0) (readTo 3)) =
    (Throw (Error "`currentBlockData` must not be null when initiating fork resolution."),
     mkSys (set_headBlockNumber 10
              (set_currentBlockData None (reader (readTo 3))))
           (mainChain 10)
           (trace (readTo 3)
            ++ [CallGetHeadBlockNumber;
                CallGetBlock (currentBlockNumber (reader (readTo 3)) + 1)])).
Proof.
  apply (nextBlock_after_rejected_seek 0 (readTo 3) 10
           (simBlock (mainChain 10) 4) (mainChain 10) (mainChain 10)).
  - vm_compute. reflexivity.
  - vm_compute. congruence.
  - vm_compute. congruence.
  - vm_compute. reflexivity.
  - vm_compute. reflexivity.
  - vm_compute. reflexivity.
  - vm_compute. congruence.
Defined.

(** ** The block a call returns *)

(** X13: whenever [nextBlock()] returns, the block it returns is the
    reader's [currentBlockData], the flags are not ([isRollback = true],
    [isNewBlock = false]), and [isFirstBlock] says whether
    [currentBlockNumber] is [startAtBlock]. *)
Theorem nextBlock_returns_current {W} `{ChainAdapter W}
    (s s' : Sys W) (b : Block) (rollback new : bool) :
  nextBlock s = (Ok (b, rollback, new), s') ->
  currentBlockData (reader s') = Some b /\
  (rollback = true -> new = true) /\
  isFirstBlock (reader s') =
    (currentBlockNumber (reader s') =? startAtBlock (reader s')).
Proof.
  unfold nextBlock. rewrite nextBlock_with_eq.
  destruct (refreshHead s) as [[[]|e] s1]; [|done].
  destruct (processBehind historyExhausted (snd (wrapToEnd s1)))
    as [[flags|e] s2] eqn:Ep; [|done].
  rewrite finish_eq. simpl.
  destruct (currentBlockData (reader s2)) as [cur|] eqn:Ec; [|done].
  intros [= <- <- <- <-]. simpl. repeat split; [done|].
  rewrite processBehind_eq in Ep.
  destruct (_ <? _); [|by injection Ep as <-].
  cbv zeta in Ep. destruct (getBlock _ _) as [[e|b0] w]; [done|].
  destruct (continues _ b0); [by injection Ep as <-|].
  destruct (resolveFork_with historyExhausted _) as [[[]|e] s3]; [|done].
  destruct (getHeadBlockNumber (world s3)) as [[e|h] w']; [done|].
  by injection Ep as <-.
Qed.

(** The reader on the one-block fork. *)
Lemma nextBlock_returns_current_witness :
  currentBlockData (reader (after nextBlock shallowFork)) =
    Some (simBlock (mkSimChain 10 5 "B") 5) /\
  (true = true -> true = true) /\
  isFirstBlock (reader (after nextBlock shallowFork)) =
    (currentBlockNumber (reader (after nextBlock shallowFork))
     =? startAtBlock (reader (after nextBlock shallowFork))).
Proof.
  apply (nextBlock_returns_current shallowFork (after nextBlock shallowFork)
           (simBlock (mkSimChain 10 5 "B") 5) true true).
  vm_compute. reflexivity.
Defined.
